(** * gen_must: the tag scanner, the signature extractors and the wrapper
      synthesizer of [main.go], embedded as executable definitions.

    Strings are byte strings ([string] of [ascii]), as Go strings are.
    Positions ([token.Pos]) are integers.  Go functions that return an
    [error], may panic at run time, or end the process through
    [showError] are functions into [outcome]. *)

From Stdlib Require Import String Ascii List ZArith NArith Bool Lia.
From Stdlib Require Import DecimalString.
From Stdlib Require DecimalNat DecimalFacts.
Import ListNotations.

Set Warnings "-register-all".

Open Scope list_scope.
Open Scope string_scope.

(** ** Outcomes *)

(** The error values declared at the top of [main.go]. *)
Inductive error : Type :=
| errNoPackageFound
| errUnknownFieldType
| errNoReturnValues
| errNoErrorReturn.

(** [error.Error()]: the message of each error value. *)
Definition error_Error (e : error) : string :=
  match e with
  | errNoPackageFound => "no package found"
  | errUnknownFieldType => "unknown field type"
  | errNoReturnValues => "no return values"
  | errNoErrorReturn => "no error returned"
  end.

(** What a call can do: return a value, return a non-nil [error], panic
    (index out of range, nil dereference), or end the process
    ([showError]: the message goes to stderr, then [os.Exit(-1)]). *)
Inductive outcome (A : Type) : Type :=
| Ok (a : A)
| Fail (e : error)
| Panic
| Exit (e : error).

Arguments Ok {A} a.
Arguments Fail {A} e.
Arguments Panic {A}.
Arguments Exit {A} e.

Definition bind {A B : Type} (m : outcome A) (k : A -> outcome B) : outcome B :=
  match m with
  | Ok a => k a
  | Fail e => Fail e
  | Panic => Panic
  | Exit e => Exit e
  end.

Notation "x <- m ;; k" := (bind m (fun x => k))
  (at level 61, m at next level, right associativity).
Notation "' p <- m ;; k" := (bind m (fun x => let p := x in k))
  (at level 61, p pattern, m at next level, right associativity).

(** [if err != nil { showError(err) }]: a returned error ends the process. *)
Definition showError {A : Type} (m : outcome A) : outcome A :=
  match m with
  | Fail e => Exit e
  | other => other
  end.

Definition isOk {A : Type} (m : outcome A) : bool :=
  match m with Ok _ => true | _ => false end.

(** ** Strings: the functions of [strings] and [fmt] the program calls *)

Definition nl : string := String (ascii_of_nat 10) "".

(** [strings.Join]. *)
Fixpoint Join (elems : list string) (sep : string) : string :=
  match elems with
  | [] => ""
  | [e] => e
  | e :: rest => e ++ sep ++ Join rest sep
  end.

(** [strings.HasPrefix]. *)
Fixpoint HasPrefix (s pref : string) {struct pref} : bool :=
  match pref with
  | "" => true
  | String p pref' =>
      match s with
      | String c s' => Ascii.eqb p c && HasPrefix s' pref'
      | "" => false
      end
  end.

(** [s[n:]] for [n <= len(s)]. *)
Fixpoint drop (n : nat) (s : string) : string :=
  match n, s with
  | O, _ => s
  | S n', String _ s' => drop n' s'
  | S _, "" => ""
  end.

(** [strings.TrimPrefix]. *)
Definition TrimPrefix (s pref : string) : string :=
  if HasPrefix s pref then drop (String.length pref) s else s.

(** The verb [%d] on a non-negative [int]. *)
Definition itoa (n : nat) : string := NilZero.string_of_uint (Nat.to_uint n).

Definition byte (c : ascii) : N := N_of_ascii c.

(** [strings.ToUpper] on a one-byte string: an ASCII byte is mapped by
    [c -= 'a' - 'A'] when it is a lower-case letter and left alone
    otherwise; a byte of 0x80 or more is not valid UTF-8 by itself and
    [strings.Map] writes the replacement character U+FFFD for it. *)
Definition ToUpper1 (c : ascii) : string :=
  if (byte c <? 128)%N then
    if ((97 <=? byte c) && (byte c <=? 122))%N
    then String (ascii_of_N (byte c - 32)) ""
    else String c ""
  else String (ascii_of_N 239) (String (ascii_of_N 191) (String (ascii_of_N 189) "")).

(** The table [asciiSpace] of package [strings]. *)
Definition asciiSpace (c : ascii) : bool :=
  match byte c with
  | 9%N | 10%N | 11%N | 12%N | 13%N | 32%N => true
  | _ => false
  end.

(** [strings.TrimSpace] removes the runes of [unicode.IsSpace] from both
    ends.  At the front these are the ASCII bytes of [asciiSpace] and the
    UTF-8 encodings of U+0085, U+00A0, U+1680, U+2000..U+200A, U+2028,
    U+2029, U+202F, U+205F and U+3000. *)
Fixpoint trimLeftSpace (s : string) : string :=
  match s with
  | "" => ""
  | String c r =>
      if asciiSpace c then trimLeftSpace r
      else
        match byte c, r with
        | 194%N, String d r' =>
            if ((byte d =? 133) || (byte d =? 160))%N then trimLeftSpace r' else s
        | 225%N, String d (String e r') =>
            if ((byte d =? 154) && (byte e =? 128))%N then trimLeftSpace r' else s
        | 226%N, String d (String e r') =>
            if ((byte d =? 128) &&
                (((128 <=? byte e) && (byte e <=? 138)) || (byte e =? 168)
                 || (byte e =? 169) || (byte e =? 175))
                || (byte d =? 129) && (byte e =? 159))%N
            then trimLeftSpace r' else s
        | 227%N, String d (String e r') =>
            if ((byte d =? 128) && (byte e =? 128))%N then trimLeftSpace r' else s
        | _, _ => s
        end
  end.

Fixpoint reverseOnto (s acc : string) : string :=
  match s with
  | "" => acc
  | String c r => reverseOnto r (String c acc)
  end.

Definition reverse (s : string) : string := reverseOnto s "".

(** The same runes read from the back, as [utf8.DecodeLastRuneInString]
    finds them: the argument is the reversed string. *)
Fixpoint trimLeftSpaceRev (s : string) : string :=
  match s with
  | "" => ""
  | String c r =>
      if asciiSpace c then trimLeftSpaceRev r
      else
        match r with
        | String d r1 =>
            if (((byte c =? 133) || (byte c =? 160)) && (byte d =? 194))%N
            then trimLeftSpaceRev r1
            else
              match r1 with
              | String e r2 =>
                  if ((byte c =? 128) && (byte d =? 154) && (byte e =? 225)
                      || (((128 <=? byte c) && (byte c <=? 138)) || (byte c =? 168)
                          || (byte c =? 169) || (byte c =? 175))
                         && (byte d =? 128) && (byte e =? 226)
                      || (byte c =? 159) && (byte d =? 129) && (byte e =? 226)
                      || (byte c =? 128) && (byte d =? 128) && (byte e =? 227))%N
                  then trimLeftSpaceRev r2 else s
              | "" => s
              end
        | "" => s
        end
  end.

Definition TrimSpace (s : string) : string :=
  reverse (trimLeftSpaceRev (reverse (trimLeftSpace s))).

(** ** The syntax tree ([go/ast]) *)

Abbreviation Pos := Z.

(** A [token.Token] is observed through [IsOperator] and [String] only. *)
Record Token : Type := mkToken {
  Token_IsOperator : bool;
  Token_String : string
}.

Definition token_OR : Token := mkToken true "|".
Definition token_TILDE : Token := mkToken true "~".
Definition token_IDENT : Token := mkToken false "IDENT".

(** [ast.Expr].  The first seven node kinds are the ones [generateType]
    has a case for; the others stand for the node kinds of its default
    case. *)
Inductive Expr : Type :=
| StarExpr (X : Expr)
| Ident (Name : string)
| Ellipsis (Elt : Expr)
| BinaryExpr (X : Expr) (Op : Token) (Y : Expr)
| UnaryExpr (Op : Token) (X : Expr)
| IndexExpr (X : Expr) (Index : Expr)
| IndexListExpr (X : Expr) (Indices : list Expr)
| ArrayType (Len : option Expr) (Elt : Expr)
| SelectorExpr (X : Expr) (Sel : string)
| MapType (Key : Expr) (Value : Expr)
| InterfaceType
| FuncTypeExpr.

(** [ast.Field]: the names declared together and their common type. *)
Record Field : Type := mkField {
  Field_Names : list string;
  Field_Type : Expr
}.

(** [*ast.FieldList]: [None] is the nil pointer, [Some l] has [List = l]. *)
Definition FieldList : Type := option (list Field).

Record FuncType : Type := mkFuncType {
  TypeParams : FieldList;
  Params : FieldList;
  Results : FieldList
}.

(** A statement of a body, known by its position. *)
Record Stmt : Type := mkStmt { Stmt_Pos : Pos }.

Record BlockStmt : Type := mkBlockStmt {
  Lbrace : Pos;
  Block_List : list Stmt;
  Rbrace : Pos
}.

Record Comment : Type := mkComment {
  Slash : Pos;
  Text : string
}.

Definition Comment_Pos (c : Comment) : Pos := Slash c.

Record CommentGroup : Type := mkCommentGroup { Group_List : list Comment }.

Record FuncDecl : Type := mkFuncDecl {
  Recv : FieldList;
  FuncDecl_Name : string;
  FuncDecl_Type : FuncType;
  Body : option BlockStmt
}.

(** Function declarations are top-level declarations of a file and do not
    nest, so the nodes [ast.Inspect] finds to be [*ast.FuncDecl] are those
    of [Decls], in this order. *)
Inductive Decl : Type :=
| FuncDeclNode (fn : FuncDecl)
| GenDecl.

Record File : Type := mkFile {
  Comments : list CommentGroup;
  Decls : list Decl
}.

Record Package : Type := mkPackage {
  Package_Name : string;
  Syntax : list File
}.

(** ** The type reconstructor *)

Section Generator.

(** The verb [%s] on a node that has no [String] method: the text [fmt]
    derives from the struct by reflection. *)
Variable fmt_struct : Expr -> string.

(** [fmt.Sprintf("%s", e)] for an [ast.Expr]: [*ast.Ident] has a
    [String] method that returns the name. *)
Definition Sprint (e : Expr) : string :=
  match e with
  | Ident n => n
  | _ => fmt_struct e
  end.

Fixpoint generateType (typ : Expr) : outcome string :=
  match typ with
  | StarExpr X =>
      tx <- generateType X ;;
      Ok ("*" ++ tx)
  | Ident n => Ok n
  | Ellipsis Elt => Ok ("..." ++ Sprint Elt)
  | BinaryExpr X Op Y =>
      if negb (Token_IsOperator Op) then Fail errUnknownFieldType
      else
        tx <- generateType X ;;
        ty <- generateType Y ;;
        Ok (tx ++ " " ++ Token_String Op ++ " " ++ ty)
  | UnaryExpr Op X => Ok (Token_String Op ++ Sprint X)
  | IndexExpr X Index =>
      ident <- generateType X ;;
      expr <- generateType Index ;;
      Ok (ident ++ "[" ++ expr ++ "]")
  | IndexListExpr X Indices =>
      ident <- generateType X ;;
      exprs <- (fix loop (l : list Expr) (exprs : list string) : outcome (list string) :=
                  match l with
                  | [] => Ok exprs
                  | i :: rest =>
                      e <- generateType i ;;
                      loop rest (exprs ++ [e])%list
                  end) Indices [] ;;
      Ok (ident ++ "[" ++ Join exprs "," ++ "]")
  | _ => Fail errUnknownFieldType
  end.

(** ** The signature extractors *)

(** [l[0]]: index out of range on an empty slice. *)
Definition index0 {A : Type} (l : list A) : outcome A :=
  match l with
  | [] => Panic
  | x :: _ => Ok x
  end.

Definition generateReceiver (recv : FieldList) : outcome (string * string) :=
  match recv with
  | None => Ok ("", "")
  | Some l =>
      f <- index0 l ;;
      name <- index0 (Field_Names f) ;;
      decl <- generateType (Field_Type f) ;;
      let name := if (name =? "_")%string then "t" else name in
      Ok ("(" ++ name ++ " " ++ decl ++ ")", name ++ ".")
  end.

(** The loop shared by [generateParams] and [generateTypeParams]: the
    first name of each field, and that name followed by the field's
    type. *)
Fixpoint fieldsLoop (l : list Field) (names types : list string)
  : outcome (list string * list string) :=
  match l with
  | [] => Ok (names, types)
  | i :: rest =>
      n <- index0 (Field_Names i) ;;
      t <- generateType (Field_Type i) ;;
      fieldsLoop rest (names ++ [n])%list (types ++ [(n ++ " " ++ t)%string])%list
  end.

Definition generateParams (params : FieldList) : outcome (string * string) :=
  match params with
  | None | Some [] => Ok ("", "")
  | Some l =>
      '(names, types) <- fieldsLoop l [] [] ;;
      Ok (Join types ",", Join names ",")
  end.

Fixpoint returnsLoop (l : list Field) (i : nat) (names types : list string)
  : outcome (list string * list string) :=
  match l with
  | [] => Ok (names, types)
  | ret :: rest =>
      t <- generateType (Field_Type ret) ;;
      returnsLoop rest (S i) (names ++ [("var" ++ itoa i)%string])%list (types ++ [t])%list
  end.

(** [l[len(l)-1] = x] on a non-empty slice. *)
Definition setLast (l : list string) (x : string) : list string :=
  (removelast l ++ [x])%list.

Definition generateReturns (rets : FieldList) : outcome (list string * list string) :=
  match rets with
  | None | Some [] => Fail errNoReturnValues
  | Some l =>
      '(names, types) <- returnsLoop l 0 [] [] ;;
      if negb (last types "" =? "error")%string then Fail errNoErrorReturn
      else Ok (types, setLast names "err")
  end.

Definition generateTypeParams (typeParams : FieldList) : outcome (string * string) :=
  match typeParams with
  | None | Some [] => Ok ("", "")
  | Some l =>
      '(names, types) <- fieldsLoop l [] [] ;;
      if (0 <? length names)%nat
      then Ok ("[" ++ Join types "," ++ "]", "[" ++ Join names "," ++ "]")
      else Ok ("", "")
  end.

(** [name[:1]] panics on the empty string; otherwise [f] is the first
    byte of the name. *)
Definition mustName (name : string) : outcome string :=
  match name with
  | "" => Panic
  | String f rest =>
      if (ToUpper1 f =? String f "")%string then Ok ("Must" ++ name)
      else Ok ("must" ++ ToUpper1 f ++ rest)
  end.

(** ** The wrapper synthesizer *)

(** The generator's buffer is the text written so far. *)
Definition generateHead (pkgName : string) (buf : string) : string :=
  (buf ++ "// Code generated - DO NOT EDIT." ++ nl
       ++ "// This file is auto generated by gen_must and any manual changes will be lost."
       ++ nl ++ nl)
  ++ "package " ++ pkgName ++ nl ++ nl.

(** The text one call of [generateMust] appends, from the extracted
    pieces. *)
Definition wrapperText (newName name : string)
  (typeParamsDecl typeParamsUse recvDecl recvUse paramsDecl paramsUse : string)
  (retsDecl retsVars : list string) : string :=
  ("// " ++ newName ++ " has the behavior of " ++ name
         ++ ", except it panics any error" ++ nl)
  ++ ("func " ++ recvDecl ++ " " ++ newName ++ typeParamsDecl
         ++ "(" ++ paramsDecl ++ ") (" ++ Join (removelast retsDecl) "," ++ ") {" ++ nl)
  ++ (Join retsVars "," ++ " := " ++ recvUse ++ name ++ typeParamsUse
         ++ "(" ++ paramsUse ++ ")" ++ nl ++ "if err!=nil{panic(err)}" ++ nl)
  ++ (let rv := removelast retsVars in
      if (0 <? length rv)%nat then "return " ++ Join rv "," else "")
  ++ "}" ++ nl ++ nl.

(** The result is the buffer after the call and the returned [error],
    which is always nil: every failure goes through [showError]. *)
Definition generateMust (newName : string) (fnDecl : FuncDecl) (buf : string)
  : outcome (string * option error) :=
  '(typeParamsDecl, typeParamsUse) <-
      showError (generateTypeParams (TypeParams (FuncDecl_Type fnDecl))) ;;
  '(recvDecl, recvUse) <- showError (generateReceiver (Recv fnDecl)) ;;
  '(paramsDecl, paramsUse) <- showError (generateParams (Params (FuncDecl_Type fnDecl))) ;;
  '(retsDecl, retsVars) <- showError (generateReturns (Results (FuncDecl_Type fnDecl))) ;;
  Ok (buf ++ wrapperText newName (FuncDecl_Name fnDecl)
                typeParamsDecl typeParamsUse recvDecl recvUse paramsDecl paramsUse
                retsDecl retsVars,
      None).

(** ** The tag scanner *)

(** The inner loop of the search for [firstComment]: [fn.Body.Lbrace]
    is read for each comment, a nil dereference when there is no body. *)
Fixpoint firstCommentIn (body : option BlockStmt) (l : list Comment)
  : outcome (option Comment) :=
  match l with
  | [] => Ok None
  | j :: rest =>
      match body with
      | None => Panic
      | Some b =>
          if ((Lbrace b <=? Comment_Pos j) && (Comment_Pos j <=? Rbrace b))%Z
          then Ok (Some j)
          else firstCommentIn body rest
      end
  end.

(** The outer loop, left by [break Outer] at the first hit. *)
Fixpoint firstComment (body : option BlockStmt) (groups : list CommentGroup)
  : outcome (option Comment) :=
  match groups with
  | [] => Ok None
  | i :: rest =>
      r <- firstCommentIn body (Group_List i) ;;
      match r with
      | Some j => Ok (Some j)
      | None => firstComment body rest
      end
  end.

(** The inner [ast.Inspect] over the body: the first node that is not
    the body itself, nil when the body has no statement. *)
Definition firstNode (b : BlockStmt) : option Stmt :=
  match Block_List b with
  | [] => None
  | n :: _ => Some n
  end.

(** Lines 87 to 117 of the callback: the comment that tags [fn], or
    [None] when the declaration is skipped. *)
Definition tagComment (file : File) (tagComment : string) (fn : FuncDecl)
  : outcome (option Comment) :=
  c <- firstComment (Body fn) (Comments file) ;;
  match c with
  | None => Ok None
  | Some firstComment =>
      match Body fn with
      | None => Panic
      | Some b =>
          match firstNode b with
          | None => Panic
          | Some firstNode =>
              if (Stmt_Pos firstNode <? Comment_Pos firstComment)%Z then Ok None
              else
                let pref := "//" ++ tagComment in
                if negb (HasPrefix (Text firstComment) pref) then Ok None
                else Ok (Some firstComment)
          end
      end
  end.

(** Lines 118 to 123: the name of the wrapper. *)
Definition newName (tagComment : string) (firstComment : Comment) (fn : FuncDecl)
  : outcome string :=
  let pref := "//" ++ tagComment in
  let newName := TrimPrefix (Text firstComment) pref in
  if HasPrefix newName ":" then Ok (TrimSpace (drop 1 newName))
  else if (newName =? "")%string then mustName (FuncDecl_Name fn)
  else Ok newName.

Section Walk.

(** The state [genFn] works on, and [genFn] itself: it returns the new
    state and its [error] result. *)
Variable State : Type.
Variable genFn : string -> FuncDecl -> State -> outcome (State * option error).

(** The callback of [ast.Inspect] at a function declaration; the pair is
    the generator state and the variable [err] the callback assigns. *)
Definition visitFuncDecl (file : File) (tag : string) (fn : FuncDecl)
  (st : State * option error) : outcome (State * option error) :=
  c <- tagComment file tag fn ;;
  match c with
  | None => Ok st
  | Some firstComment =>
      name <- newName tag firstComment fn ;;
      genFn name fn (fst st)
  end.

(** [ast.Inspect(file, ...)]: a callback result of [false] only keeps
    the walk out of the children of the declaration, the walk goes on
    with the next declaration. *)
Fixpoint inspectDecls (file : File) (tag : string) (decls : list Decl)
  (st : State * option error) : outcome (State * option error) :=
  match decls with
  | [] => Ok st
  | FuncDeclNode fn :: rest =>
      st' <- visitFuncDecl file tag fn st ;;
      inspectDecls file tag rest st'
  | GenDecl :: rest => inspectDecls file tag rest st
  end.

Fixpoint walkFiles (files : list File) (tag : string) (s : State) : outcome State :=
  match files with
  | [] => Ok s
  | file :: rest =>
      '(s', err) <- inspectDecls file tag (Decls file) (s, None) ;;
      match err with
      | Some e => Fail e
      | None => walkFiles rest tag s'
      end
  end.

Definition walkCode (pkg : Package) (tagComment : string) (s : State) : outcome State :=
  walkFiles (Syntax pkg) tagComment s.

End Walk.

(** [main] up to the formatter: the buffer handed to [goFormat]. *)
Definition generate (pkg : Package) : outcome string :=
  let gen := generateHead (Package_Name pkg) "" in
  showError (walkCode string generateMust pkg "@gen_must" gen).

End Generator.

(** The loop of the [IndexListExpr] case, named. *)
Fixpoint generateTypes (fmt_struct : Expr -> string) (l : list Expr) (exprs : list string)
  : outcome (list string) :=
  match l with
  | [] => Ok exprs
  | i :: rest =>
      e <- generateType fmt_struct i ;;
      generateTypes fmt_struct rest (exprs ++ [e])%list
  end.

(** Induction over type expressions, with the indices of a multiple
    index as a list. *)
Section ExprInduction.

Variable P : Expr -> Prop.
Hypothesis HStar : forall X, P X -> P (StarExpr X).
Hypothesis HIdent : forall n, P (Ident n).
Hypothesis HEllipsis : forall Elt, P (Ellipsis Elt).
Hypothesis HBinary : forall X Op Y, P X -> P Y -> P (BinaryExpr X Op Y).
Hypothesis HUnary : forall Op X, P (UnaryExpr Op X).
Hypothesis HIndex : forall X Idx, P X -> P Idx -> P (IndexExpr X Idx).
Hypothesis HIndexList : forall X Is, P X -> Forall P Is -> P (IndexListExpr X Is).
Hypothesis HArray : forall Len Elt, P (ArrayType Len Elt).
Hypothesis HSelector : forall X Sel, P (SelectorExpr X Sel).
Hypothesis HMap : forall K V, P (MapType K V).
Hypothesis HInterface : P InterfaceType.
Hypothesis HFunc : P FuncTypeExpr.

Fixpoint Expr_reconstructed_ind (e : Expr) : P e :=
  match e with
  | StarExpr X => HStar X (Expr_reconstructed_ind X)
  | Ident n => HIdent n
  | Ellipsis Elt => HEllipsis Elt
  | BinaryExpr X Op Y =>
      HBinary X Op Y (Expr_reconstructed_ind X) (Expr_reconstructed_ind Y)
  | UnaryExpr Op X => HUnary Op X
  | IndexExpr X Idx =>
      HIndex X Idx (Expr_reconstructed_ind X) (Expr_reconstructed_ind Idx)
  | IndexListExpr X Is =>
      HIndexList X Is (Expr_reconstructed_ind X)
        ((fix all (l : list Expr) : Forall P l :=
            match l with
            | [] => Forall_nil P
            | i :: rest => Forall_cons i (Expr_reconstructed_ind i) (all rest)
            end) Is)
  | ArrayType Len Elt => HArray Len Elt
  | SelectorExpr X Sel => HSelector X Sel
  | MapType K V => HMap K V
  | InterfaceType => HInterface
  | FuncTypeExpr => HFunc
  end.

End ExprInduction.

(** ** Vocabulary of the specification *)

(** The body span of a function. *)
Definition inSpan (b : BlockStmt) (c : Comment) : bool :=
  ((Lbrace b <=? Comment_Pos c) && (Comment_Pos c <=? Rbrace b))%Z.

(** The comments of a file, in the order of [file.Comments]. *)
Definition allComments (file : File) : list Comment :=
  flat_map Group_List (Comments file).

(** The first comment lying within the body span. *)
Definition firstCommentWithin (file : File) (b : BlockStmt) : option Comment :=
  find (inSpan b) (allComments file).

(** The number of parameters or results a field list declares
    ([FieldList.NumFields] of [go/ast]): a field counts once for each of
    its names, and once when it has none. *)
Definition NumFields (fl : FieldList) : nat :=
  match fl with
  | None => 0
  | Some l => fold_right (fun g n => Nat.max 1 (length (Field_Names g)) + n) 0 l
  end.

(** A string of ASCII white space, and a byte that is ASCII and not
    white space. *)
Fixpoint allSpace (s : string) : bool :=
  match s with
  | "" => true
  | String c r => asciiSpace c && allSpace r
  end.

Definition plain (c : ascii) : bool := (byte c <? 128)%N && negb (asciiSpace c).

(** A text that is empty, or whose first and last bytes are plain. *)
Definition edgesPlain (s : string) : bool :=
  match s, reverse s with
  | "", _ => true
  | String c _, String d _ => plain c && plain d
  | String _ _, "" => false
  end.

Definition isUpper (c : ascii) : bool := ((65 <=? byte c) && (byte c <=? 90))%N.
Definition isLower (c : ascii) : bool := ((97 <=? byte c) && (byte c <=? 122))%N.
Definition upper (c : ascii) : ascii :=
  if isLower c then ascii_of_N (byte c - 32) else c.

(** The default name in the specification's words, for a name whose
    first character is an ASCII byte: [Must] before a name whose first
    character is upper-case, [must] and the name with its first character
    upper-cased before any other.  A name that begins with another byte
    begins with a character of several bytes, which this definition does
    not decode: it gives no name for it. *)
Definition derivedName (name : string) : option string :=
  match name with
  | "" => None
  | String c rest =>
      if (byte c <? 128)%N then
        Some (if isUpper c then "Must" ++ name else "must" ++ String (upper c) rest)
      else None
  end.

(** The precondition of the tag scan in the specification's words: the
    declaration has a body, and the body has a node whenever a comment of
    the file falls within its span. *)
Definition bodyScannable (file : File) (fn : FuncDecl) : bool :=
  match Body fn with
  | None => false
  | Some b =>
      negb (existsb (inSpan b) (allComments file))
      || match Block_List b with [] => false | _ :: _ => true end
  end.

(** The text the reconstructor gives for a type, empty when it fails. *)
Definition typeText (fmt_struct : Expr -> string) (e : Expr) : string :=
  match generateType fmt_struct e with
  | Ok t => t
  | _ => ""
  end.

Definition reconstructs (fmt_struct : Expr -> string) (f : Field) : bool :=
  isOk (generateType fmt_struct (Field_Type f)).

(** The variables [var<i>], ..., [var<i+n-1>]. *)
Definition varNames (i n : nat) : list string :=
  map (fun k => "var" ++ itoa k) (seq i n).

Definition flatten (l : list string) : string := fold_right append "" l.

(** The text the visit of one declaration appends to the buffer. *)
Definition emitted (fmt_struct : Expr -> string) (file : File) (tag : string) (d : Decl)
  : string :=
  match d with
  | GenDecl => ""
  | FuncDeclNode fn =>
      match visitFuncDecl string (generateMust fmt_struct) file tag fn ("", None) with
      | Ok (text, _) => text
      | _ => ""
      end
  end.

(** ** Declarations used as examples *)

(** No example reaches the text [fmt] derives by reflection. *)
Definition fmt_none : Expr -> string := fun _ => "".

Definition int : Expr := Ident "int".
Definition error_type : Expr := Ident "error".

(** [func Divide(a, b int) (int, error) { //@gen_must ... }] *)
Definition Divide : FuncDecl :=
  mkFuncDecl None "Divide"
    (mkFuncType None
       (Some [mkField ["a"; "b"] int])
       (Some [mkField [] int; mkField [] error_type]))
    (Some (mkBlockStmt 40%Z [mkStmt 60%Z] 120%Z)).

Definition file_Divide : File :=
  mkFile [mkCommentGroup [mkComment 44%Z "//@gen_must"]] [GenDecl; FuncDeclNode Divide].

Definition pkg_Divide : Package := mkPackage "testpkg" [file_Divide].

(** [func Pair() (a, b int, err error) { //@gen_must ... }] *)
Definition Pair : FuncDecl :=
  mkFuncDecl None "Pair"
    (mkFuncType None (Some [])
       (Some [mkField ["a"; "b"] int; mkField ["err"] error_type]))
    (Some (mkBlockStmt 40%Z [mkStmt 60%Z] 120%Z)).

(** [func Sum() ([]byte, int)]: the first result is an array type. *)
Definition results_bytes_int : FieldList :=
  Some [mkField [] (ArrayType None (Ident "byte")); mkField [] int].

(** [func (_ *TypeA) M() error] *)
Definition recv_discard : FieldList :=
  Some [mkField ["_"] (StarExpr (Ident "TypeA"))].

(** [func add(a, b int) int], implemented outside Go, in a file without
    comments. *)
Definition external_add : FuncDecl :=
  mkFuncDecl None "add"
    (mkFuncType None (Some [mkField ["a"; "b"] int]) (Some [mkField [] int]))
    None.

Definition file_external : File := mkFile [] [FuncDeclNode external_add].

(** [func _helper() error { //@gen_must ... }] *)
Definition underscore_helper : FuncDecl :=
  mkFuncDecl None "_helper" (mkFuncType None (Some []) (Some [mkField [] error_type]))
    (Some (mkBlockStmt 40%Z [mkStmt 60%Z] 120%Z)).

(** The name [Elan] with an acute accent on its first letter, U+00C9,
    which UTF-8 writes as the bytes C3 89; and the replacement character
    U+FFFD, the bytes EF BF BD. *)
Definition Elan : string :=
  String (ascii_of_N 195) (String (ascii_of_N 137) "lan").

Definition U_FFFD : string :=
  String (ascii_of_N 239) (String (ascii_of_N 191) (String (ascii_of_N 189) "")).

(** [func (TypeA) Anon() error { //@gen_must ... }]: the receiver has a
    type and no name. *)
Definition recv_unnamed : FieldList := Some [mkField [] (Ident "TypeA")].

Definition Anon : FuncDecl :=
  mkFuncDecl recv_unnamed "Anon"
    (mkFuncType None (Some []) (Some [mkField [] error_type]))
    (Some (mkBlockStmt 40%Z [mkStmt 60%Z] 120%Z)).

Definition file_Anon : File :=
  mkFile [mkCommentGroup [mkComment 44%Z "//@gen_must"]] [FuncDeclNode Anon].

Definition pkg_Anon : Package := mkPackage "testpkg" [file_Anon].

(** The slice type [[]E], and [func Sum[S ~[]E, E any](s S) error
    { //@gen_must ... }], whose first type parameter is constrained by
    [~[]E]. *)
Definition slice_E : Expr := ArrayType None (Ident "E").

Definition Sum : FuncDecl :=
  mkFuncDecl None "Sum"
    (mkFuncType
       (Some [mkField ["S"] (UnaryExpr token_TILDE slice_E);
              mkField ["E"] (Ident "any")])
       (Some [mkField ["s"] (Ident "S")])
       (Some [mkField [] error_type]))
    (Some (mkBlockStmt 40%Z [mkStmt 60%Z] 120%Z)).

(** [Divide] tagged [//@gen_must: SafeDivide]. *)
Definition file_SafeDivide : File :=
  mkFile [mkCommentGroup [mkComment 44%Z "//@gen_must: SafeDivide"]]
         [FuncDeclNode Divide].

(** ** Vocabulary of the further properties *)

(** Type expressions in which every variadic element and every operand of
    a unary operator is an identifier, so that [%s] prints a name. *)
Fixpoint printsNames (e : Expr) : bool :=
  match e with
  | StarExpr X => printsNames X
  | Ident _ => true
  | Ellipsis (Ident _) => true
  | Ellipsis _ => false
  | BinaryExpr X _ Y => printsNames X && printsNames Y
  | UnaryExpr _ (Ident _) => true
  | UnaryExpr _ _ => false
  | IndexExpr X Index => printsNames X && printsNames Index
  | IndexListExpr X Indices =>
      printsNames X
      && (fix all (l : list Expr) : bool :=
            match l with
            | [] => true
            | i :: rest => printsNames i && all rest
            end) Indices
  | _ => true
  end.

(** A field that declares a name, its first name, and the declaration
    text of a parameter. *)
Definition named (f : Field) : bool :=
  match Field_Names f with
  | [] => false
  | _ :: _ => true
  end.

Definition firstName (f : Field) : string := hd "" (Field_Names f).

Definition paramDecl (fmt_struct : Expr -> string) (f : Field) : string :=
  firstName f ++ " " ++ typeText fmt_struct (Field_Type f).

(** A field cut down to its first name, and to no name at all. *)
Definition firstNameOnly (f : Field) : Field :=
  mkField (firstn 1 (Field_Names f)) (Field_Type f).

Definition withoutNames (f : Field) : Field := mkField [] (Field_Type f).

(** A declaration cut down to what the extractors read: the first
    receiver field, the first name of each field of the receiver, the
    type parameters and the parameters, and no name of a result. *)
Definition firstReceiver (recv : FieldList) : FieldList :=
  match recv with
  | Some (f :: _) => Some [firstNameOnly f]
  | other => other
  end.

Definition extractedPart (fn : FuncDecl) : FuncDecl :=
  mkFuncDecl
    (firstReceiver (Recv fn))
    (FuncDecl_Name fn)
    (mkFuncType
       (option_map (map firstNameOnly) (TypeParams (FuncDecl_Type fn)))
       (option_map (map firstNameOnly) (Params (FuncDecl_Type fn)))
       (option_map (map withoutNames) (Results (FuncDecl_Type fn))))
    (Body fn).

Definition firstUpper (s : string) : bool :=
  match s with
  | "" => false
  | String c _ => isUpper c
  end.

(** The errors an extractor can return. *)
Definition extractionError (e : error) : bool :=
  match e with
  | errNoPackageFound => false
  | _ => true
  end.

(** An outcome that is no returned error and, when it ends the process,
    ends it with an error of the extractors. *)
Definition endsAsExtractor {A : Type} (o : outcome A) : Prop :=
  match o with
  | Fail _ => False
  | Exit e => extractionError e = true
  | _ => True
  end.

(** A [genFn] that records the names it is called with and fails on the
    declaration called [bad]. *)
Definition recordNames (bad : string) (name : string) (fn : FuncDecl) (s : list string)
  : outcome (list string * option error) :=
  Ok ((s ++ [name])%list,
      if (FuncDecl_Name fn =? bad)%string then Some errNoErrorReturn else None).

(** [func First() error { //@gen_must ... }] and
    [func Second() error { //@gen_must ... }] in one file. *)
Definition First : FuncDecl :=
  mkFuncDecl None "First" (mkFuncType None (Some []) (Some [mkField [] error_type]))
    (Some (mkBlockStmt 40%Z [mkStmt 60%Z] 120%Z)).

Definition Second : FuncDecl :=
  mkFuncDecl None "Second" (mkFuncType None (Some []) (Some [mkField [] error_type]))
    (Some (mkBlockStmt 140%Z [mkStmt 160%Z] 220%Z)).

Definition file_two : File :=
  mkFile [mkCommentGroup [mkComment 44%Z "//@gen_must"];
          mkCommentGroup [mkComment 144%Z "//@gen_must"]]
         [FuncDeclNode First; FuncDeclNode Second].

(** [func Third() error], which has no comment in its body, and the
    file of [First] and [Second] followed by a declaration that is no
    function and by [Third]. *)
Definition Third : FuncDecl :=
  mkFuncDecl None "Third" (mkFuncType None (Some []) (Some [mkField [] error_type]))
    (Some (mkBlockStmt 240%Z [mkStmt 260%Z] 320%Z)).

Definition file_three : File :=
  mkFile [mkCommentGroup [mkComment 44%Z "//@gen_must"];
          mkCommentGroup [mkComment 144%Z "//@gen_must"]]
         [FuncDeclNode First; FuncDeclNode Second; GenDecl; FuncDeclNode Third].

(** * Properties *)

(** ** Outcomes and strings *)

Lemma bind_Ok_inv {A B : Type} (m : outcome A) (k : A -> outcome B) (b : B) :
  bind m k = Ok b -> exists a, m = Ok a /\ k a = Ok b.
Proof.
  destruct m as [a | e | | e]; simpl; intro H; try discriminate.
  exists a; split; [reflexivity | exact H].
Qed.

Lemma isOk_bind {A B : Type} (m : outcome A) (k : A -> outcome B) :
  isOk m = false -> isOk (bind m k) = false.
Proof. destruct m; simpl; intro H; (discriminate || reflexivity). Qed.

Lemma isOk_showError {A : Type} (m : outcome A) : isOk (showError m) = isOk m.
Proof. destruct m; reflexivity. Qed.

Lemma isOk_true_inv {A : Type} (m : outcome A) :
  isOk m = true -> exists a, m = Ok a.
Proof. destruct m as [a | | | ]; simpl; intro H; try discriminate. now exists a. Qed.

Lemma HasPrefix_app (pref s : string) : HasPrefix (pref ++ s) pref = true.
Proof.
  induction pref as [| p pref IH]; simpl.
  - reflexivity.
  - now rewrite Ascii.eqb_refl, IH.
Qed.

Lemma drop_app (pref s : string) : drop (String.length pref) (pref ++ s) = s.
Proof. induction pref as [| p pref IH]; simpl; [reflexivity | exact IH]. Qed.

Lemma string_app_nil_r (a : string) : a ++ "" = a.
Proof. induction a as [| x a IH]; simpl; [reflexivity | now rewrite IH]. Qed.

Lemma TrimPrefix_app (pref s : string) : TrimPrefix (pref ++ s) pref = s.
Proof. unfold TrimPrefix. now rewrite HasPrefix_app, drop_app. Qed.

Lemma TrimPrefix_self (pref : string) : TrimPrefix pref pref = "".
Proof.
  generalize (TrimPrefix_app pref ""). now rewrite string_app_nil_r.
Qed.

Lemma string_app_assoc (a b c : string) : (a ++ b) ++ c = a ++ b ++ c.
Proof. induction a as [| x a IH]; simpl; [reflexivity | now rewrite IH]. Qed.


(** ** The type reconstructor *)

Section TypeReconstructor.

Variable fmt_struct : Expr -> string.

Local Abbreviation generateType := (generateType fmt_struct).
Local Abbreviation generateTypes := (generateTypes fmt_struct).
Local Abbreviation Sprint := (Sprint fmt_struct).

Lemma generateType_IndexListExpr (X : Expr) (Is : list Expr) :
  generateType (IndexListExpr X Is) =
  (ident <- generateType X ;;
   exprs <- generateTypes Is [] ;;
   Ok (ident ++ "[" ++ Join exprs "," ++ "]")).
Proof.
  simpl. destruct (generateType X) as [ident | | |]; simpl; try reflexivity.
  f_equal.
  generalize (@nil string) at 2 3.
  induction Is as [| i rest IH]; intro acc; simpl.
  - reflexivity.
  - destruct (generateType i) as [e | | |]; simpl; try reflexivity.
    apply IH.
Qed.

Lemma isOk_generateTypes (l : list Expr) (acc : list string) :
  isOk (generateTypes l acc) = forallb (fun i => isOk (generateType i)) l.
Proof.
  revert acc; induction l as [| i rest IH]; intro acc; simpl.
  - reflexivity.
  - destruct (generateType i); simpl; try reflexivity.
    apply IH.
Qed.

(** The reconstructor returns a text or [errUnknownFieldType]; it does
    not panic and does not end the process. *)
Lemma generateType_outcome (e : Expr) :
  (exists s, generateType e = Ok s) \/ generateType e = Fail errUnknownFieldType.
Proof.
  induction e as [X IHX | n | Elt | X Op Y IHX IHY | Op X | X Idx IHX IHI
                  | X Is IHX IHIs | | | | | ] using Expr_reconstructed_ind;
    try rewrite generateType_IndexListExpr; simpl; try (right; reflexivity); try (left; eexists; reflexivity).
  - destruct IHX as [[s ->] | ->]; simpl; [left; eexists; reflexivity | now right].
  - destruct (Token_IsOperator Op); simpl; [| now right].
    destruct IHX as [[s ->] | ->]; simpl; [| now right].
    destruct IHY as [[t ->] | ->]; simpl; [left; eexists; reflexivity | now right].
  - destruct IHX as [[s ->] | ->]; simpl; [| now right].
    destruct IHI as [[t ->] | ->]; simpl; [left; eexists; reflexivity | now right].
  - destruct IHX as [[s ->] | ->]; simpl; [| now right].
    assert (H : forall acc, (exists l, generateTypes Is acc = Ok l)
                            \/ generateTypes Is acc = Fail errUnknownFieldType).
    { induction IHIs as [| i rest Hi _ IH]; intro acc; simpl.
      - left; eexists; reflexivity.
      - destruct Hi as [[t ->] | ->]; simpl; [apply IH | now right]. }
    destruct (H []) as [[l ->] | ->]; simpl; [left; eexists; reflexivity | now right].
Qed.

Lemma generateType_not_Ok (e : Expr) :
  isOk (generateType e) = false -> generateType e = Fail errUnknownFieldType.
Proof.
  destruct (generateType_outcome e) as [[s ->] | ->]; simpl; [discriminate | reflexivity].
Qed.

Example generateType_pointer_generic :
  generateType (StarExpr (IndexExpr (Ident "TypeB") (Ident "T"))) = Ok "*TypeB[T]".
Proof. reflexivity. Qed.

Example generateType_union :
  generateType (BinaryExpr (UnaryExpr token_TILDE (Ident "int")) token_OR
                           (UnaryExpr token_TILDE (Ident "string")))
  = Ok "~int | ~string".
Proof. reflexivity. Qed.

Example generateType_not_operator :
  generateType (BinaryExpr (Ident "a") token_IDENT (Ident "b")) = Fail errUnknownFieldType.
Proof. reflexivity. Qed.

Example generateType_index_list :
  generateType (IndexListExpr (Ident "TypeC") [Ident "K"; StarExpr (Ident "V")])
  = Ok "TypeC[K,*V]".
Proof. reflexivity. Qed.

Example generateType_variadic :
  generateType (Ellipsis (Ident "string")) = Ok "...string".
Proof. reflexivity. Qed.

Example generateType_slice :
  generateType (ArrayType None (Ident "byte")) = Fail errUnknownFieldType.
Proof. reflexivity. Qed.

(** A slice under a pointer is an error; under a unary operator it is
    printed. *)
Example generateType_unary_slice :
  generateType (StarExpr (ArrayType None (Ident "byte"))) = Fail errUnknownFieldType
  /\ generateType (UnaryExpr token_TILDE (ArrayType None (Ident "byte")))
     = Ok ("~" ++ fmt_struct (ArrayType None (Ident "byte"))).
Proof. split; reflexivity. Qed.

(** The rule of unary type expressions.  The reconstructor returns the
    operator's text followed by the operand as [%s] prints it, which for
    an identifier is its name: the operand is not reconstructed and no
    operand makes the rule fail.  The rules that recurse (pointer,
    binary, single and multiple index) succeed only when the
    reconstruction of every operand does. *)
Lemma generateType_unary_rule (Op : Token) (X : Expr) :
  generateType (UnaryExpr Op X) = Ok (Token_String Op ++ Sprint X)
  /\ (forall n, generateType (UnaryExpr Op (Ident n)) = Ok (Token_String Op ++ n))
  /\ isOk (generateType (StarExpr X)) = isOk (generateType X)
  /\ (forall Op' Y, isOk (generateType (BinaryExpr X Op' Y)) =
                    Token_IsOperator Op' && isOk (generateType X) && isOk (generateType Y))
  /\ (forall Idx, isOk (generateType (IndexExpr X Idx)) =
                  isOk (generateType X) && isOk (generateType Idx))
  /\ (forall Is, isOk (generateType (IndexListExpr X Is)) =
                 isOk (generateType X) && forallb (fun i => isOk (generateType i)) Is).
Proof.
  repeat split.
  - simpl. destruct (generateType X); reflexivity.
  - intros Op' Y. simpl.
    destruct (Token_IsOperator Op'); simpl; [| reflexivity].
    destruct (generateType X); simpl; try reflexivity.
    destruct (generateType Y); reflexivity.
  - intro Idx. simpl.
    destruct (generateType X); simpl; try reflexivity.
    destruct (generateType Idx); reflexivity.
  - intro Is. rewrite generateType_IndexListExpr.
    destruct (generateType X); simpl; try reflexivity.
    rewrite <- (isOk_generateTypes Is []).
    destruct (generateTypes Is []); reflexivity.
Qed.

End TypeReconstructor.

(** C8. In [func Sum[S ~[]E, E any](s S) error] the operand of [~] is
    the slice type [[]E].  The unary rule prints the operand with [%s]:
    an identifier has a [String] method and is printed as its name, any
    other node is printed by reflection, as a text that begins with
    [&{].  The reconstructed text is therefore never [~[]E], and the text
    printed by reflection is what the wrapper has among its type
    parameters.  The rules beside it reconstruct their operands, as the
    pointer rule does, which fails on the slice. *)
Theorem C8_unary_slice_operand :
  (forall fmt_struct,
      generateType fmt_struct (UnaryExpr token_TILDE slice_E)
      = Ok ("~" ++ fmt_struct slice_E))
  /\ ~ (exists fmt_struct,
          HasPrefix (fmt_struct slice_E) "&{" = true
          /\ generateType fmt_struct (UnaryExpr token_TILDE slice_E) = Ok "~[]E")
  /\ (forall fmt_struct,
        generateTypeParams fmt_struct (TypeParams (FuncDecl_Type Sum))
        = Ok ("[S ~" ++ fmt_struct slice_E ++ ",E any]", "[S,E]"))
  /\ (forall fmt_struct,
        generateType fmt_struct (StarExpr slice_E) = Fail errUnknownFieldType)
  /\ (forall fmt_struct n,
        generateType fmt_struct (UnaryExpr token_TILDE (Ident n)) = Ok ("~" ++ n)).
Proof.
  split; [intro fmt_struct; reflexivity |]. split; [| split; [| split]].
  - intros (fmt_struct & Hp & H). simpl in H. injection H as H.
    rewrite H in Hp. discriminate Hp.
  - intro fmt_struct. unfold generateTypeParams. simpl.
    now rewrite !string_app_assoc.
  - intro fmt_struct. reflexivity.
  - intros fmt_struct n. reflexivity.
Qed.

(** ** The receiver extractor *)

Section Receiver.

Variable fmt_struct : Expr -> string.

Local Abbreviation generateType := (generateType fmt_struct).

(** The receiver extractor, case by case.  Without a receiver it yields
    empty declaration and usage text.  With one it takes the first name
    of the first receiver field, uses [t] in place of the discard name
    [_], and yields [(name Type)] and [name.], the type being the text
    [generateType] reconstructs.  A type that does not reconstruct is the
    extractor's error, and a receiver without a name makes [Names[0]]
    panic. *)
Lemma generateReceiver_cases (recv : FieldList) :
  (recv = None -> generateReceiver fmt_struct recv = Ok ("", ""))
  /\ (forall f rest n names ty,
        recv = Some (f :: rest) -> Field_Names f = n :: names ->
        generateType (Field_Type f) = Ok ty ->
        (n <> "_" ->
         generateReceiver fmt_struct recv = Ok ("(" ++ n ++ " " ++ ty ++ ")", n ++ "."))
        /\ (n = "_" ->
            generateReceiver fmt_struct recv = Ok ("(t " ++ ty ++ ")", "t.")))
  /\ (forall f rest n names,
        recv = Some (f :: rest) -> Field_Names f = n :: names ->
        isOk (generateType (Field_Type f)) = false ->
        generateReceiver fmt_struct recv = Fail errUnknownFieldType)
  /\ (forall f rest,
        recv = Some (f :: rest) -> Field_Names f = [] ->
        generateReceiver fmt_struct recv = Panic).
Proof.
  repeat split.
  - intros ->. reflexivity.
  - intros Hn. subst recv. unfold generateReceiver. simpl.
    rewrite H0. simpl. rewrite H1. simpl.
    apply String.eqb_neq in Hn. rewrite Hn. reflexivity.
  - intros ->. subst recv. unfold generateReceiver. simpl.
    rewrite H0. simpl. rewrite H1. reflexivity.
  - intros f rest n names -> Hnames Hty.
    unfold generateReceiver. simpl. rewrite Hnames. simpl.
    rewrite (generateType_not_Ok fmt_struct _ Hty). reflexivity.
  - intros f rest -> Hnames.
    unfold generateReceiver. simpl. rewrite Hnames. reflexivity.
Qed.

End Receiver.

(** A discard receiver of pointer type: [(t *TypeA)] and [t.]. *)
Lemma generateReceiver_cases_discard :
  generateReceiver fmt_none recv_discard = Ok ("(t *TypeA)", "t.").
Proof.
  refine (proj2 (proj1 (proj2 (generateReceiver_cases fmt_none recv_discard))
                   (mkField ["_"] (StarExpr (Ident "TypeA"))) [] "_" [] "*TypeA"
                   eq_refl eq_refl eq_refl) eq_refl).
Defined.

(** C7. A receiver that has a type and no name, as in
    [func (TypeA) Anon() error], is a receiver field whose list of names
    is empty.  The extractor reads [Names[0]] before anything else: it
    panics, for any rendering of types, where the specification has the
    receiver renamed to the placeholder and [(t TypeA)] and [t.]
    returned; the run over a package with such a tagged method panics.
    Only a receiver named [_] is renamed. *)
Theorem C7_unnamed_receiver :
  (forall fmt_struct, generateReceiver fmt_struct recv_unnamed = Panic)
  /\ generateReceiver fmt_none recv_unnamed <> Ok ("(t TypeA)", "t.")
  /\ tagComment file_Anon "@gen_must" Anon = Ok (Some (mkComment 44%Z "//@gen_must"))
  /\ generate fmt_none pkg_Anon = Panic
  /\ generateReceiver fmt_none recv_discard = Ok ("(t *TypeA)", "t.").
Proof.
  split; [intro fmt_struct; reflexivity |].
  split; [discriminate |]. repeat split.
Qed.

(** ** The text of a wrapper *)

(** What [generateMust] appends once the four extractors have returned:
    the comment line, the signature with the name of the wrapper, the
    call, the test of [err], and the [return] when a result is left. *)
Lemma generateMust_text (fmt_struct : Expr -> string) (name : string) (fn : FuncDecl)
    (buf tpd tpu rd ru pd pu : string) (retd retv : list string) :
  generateTypeParams fmt_struct (TypeParams (FuncDecl_Type fn)) = Ok (tpd, tpu) ->
  generateReceiver fmt_struct (Recv fn) = Ok (rd, ru) ->
  generateParams fmt_struct (Params (FuncDecl_Type fn)) = Ok (pd, pu) ->
  generateReturns fmt_struct (Results (FuncDecl_Type fn)) = Ok (retd, retv) ->
  generateMust fmt_struct name fn buf =
    Ok (buf
        ++ ("// " ++ name ++ " has the behavior of " ++ FuncDecl_Name fn
                  ++ ", except it panics any error" ++ nl)
        ++ ("func " ++ rd ++ " " ++ name ++ tpd ++ "(" ++ pd ++ ") ("
                    ++ Join (removelast retd) "," ++ ") {" ++ nl)
        ++ (Join retv "," ++ " := " ++ ru ++ FuncDecl_Name fn ++ tpu
                          ++ "(" ++ pu ++ ")" ++ nl ++ "if err!=nil{panic(err)}" ++ nl)
        ++ (if (0 <? length (removelast retv))%nat
            then "return " ++ Join (removelast retv) "," else "")
        ++ "}" ++ nl ++ nl,
        None).
Proof.
  intros Htp Hrecv Hparams Hrets.
  unfold generateMust. rewrite Htp, Hrecv, Hparams, Hrets. reflexivity.
Qed.

(** ** The name of the wrapper *)

(** [strings.TrimSpace] on a text with ASCII white space around it. *)

Lemma reverseOnto_app (s acc : string) : reverseOnto s acc = reverse s ++ acc.
Proof.
  unfold reverse. revert acc.
  induction s as [| c s IH]; intro acc; simpl.
  - reflexivity.
  - rewrite IH, (IH (String c "")), string_app_assoc. reflexivity.
Qed.

Lemma reverse_cons (c : ascii) (s : string) : reverse (String c s) = reverse s ++ String c "".
Proof. unfold reverse at 1. simpl. apply reverseOnto_app. Qed.

Lemma reverse_app (a b : string) : reverse (a ++ b) = reverse b ++ reverse a.
Proof.
  induction a as [| c a IH]; simpl.
  - now rewrite string_app_nil_r.
  - now rewrite !reverse_cons, IH, string_app_assoc.
Qed.

Lemma reverse_involutive (s : string) : reverse (reverse s) = s.
Proof.
  induction s as [| c s IH]; [reflexivity |].
  now rewrite reverse_cons, reverse_app, IH.
Qed.

Lemma allSpace_app (a b : string) : allSpace (a ++ b) = allSpace a && allSpace b.
Proof.
  induction a as [| c a IH]; simpl; [reflexivity |].
  now rewrite IH, andb_assoc.
Qed.

Lemma allSpace_reverse (s : string) : allSpace (reverse s) = allSpace s.
Proof.
  induction s as [| c s IH]; [reflexivity |].
  rewrite reverse_cons, allSpace_app, IH. simpl.
  now rewrite andb_true_r, andb_comm.
Qed.

Lemma trimLeftSpace_spaces (ws s : string) :
  allSpace ws = true -> trimLeftSpace (ws ++ s) = trimLeftSpace s.
Proof.
  induction ws as [| c ws IH]; simpl; [reflexivity |].
  intro H. apply andb_true_iff in H. destruct H as [Hc Hws].
  rewrite Hc. now apply IH.
Qed.

Lemma trimLeftSpaceRev_spaces (ws s : string) :
  allSpace ws = true -> trimLeftSpaceRev (ws ++ s) = trimLeftSpaceRev s.
Proof.
  induction ws as [| c ws IH]; simpl; [reflexivity |].
  intro H. apply andb_true_iff in H. destruct H as [Hc Hws].
  rewrite Hc. now apply IH.
Qed.

Lemma trimLeftSpace_plain (c : ascii) (r : string) :
  plain c = true -> trimLeftSpace (String c r) = String c r.
Proof.
  destruct c as [[] [] [] [] [] [] [] []]; intro H;
    try (vm_compute in H; discriminate H); reflexivity.
Qed.

Lemma trimLeftSpaceRev_plain (c : ascii) (r : string) :
  plain c = true -> trimLeftSpaceRev (String c r) = String c r.
Proof.
  destruct c as [[] [] [] [] [] [] [] []]; intro H;
    try (vm_compute in H; discriminate H);
    destruct r as [| d [| e r2]]; reflexivity.
Qed.

Lemma TrimSpace_ascii (ws1 core ws2 : string) :
  allSpace ws1 = true -> allSpace ws2 = true -> edgesPlain core = true ->
  TrimSpace (ws1 ++ core ++ ws2) = core.
Proof.
  intros H1 H2 Hcore. unfold TrimSpace.
  rewrite trimLeftSpace_spaces by exact H1.
  unfold edgesPlain in Hcore.
  destruct core as [| c m].
  - simpl.
    rewrite <- (string_app_nil_r ws2), trimLeftSpace_spaces by exact H2.
    reflexivity.
  - destruct (reverse (String c m)) as [| d m'] eqn:Hrev; [discriminate |].
    apply andb_true_iff in Hcore. destruct Hcore as [Hc Hd].
    change (String c m ++ ws2) with (String c (m ++ ws2)).
    rewrite trimLeftSpace_plain by exact Hc.
    change (String c (m ++ ws2)) with (String c m ++ ws2).
    rewrite reverse_app, Hrev.
    rewrite trimLeftSpaceRev_spaces by now rewrite allSpace_reverse.
    rewrite trimLeftSpaceRev_plain by exact Hd.
    rewrite <- Hrev. apply reverse_involutive.
Qed.

(** C6. When the text after the marker prefix begins with a colon, the
    name of the wrapper is the rest of the comment after the colon with
    the white space at both ends trimmed: a name between two runs of
    ASCII white space comes out as it stands.  The name of the original
    function plays no part.  This is the name the scanner hands to the
    synthesizer, and the name [generateMust] writes in the comment line
    and after [func] and the receiver in the signature of the wrapper. *)
Theorem C6_explicit_name (tag : string) (c : Comment) (fn : FuncDecl) (rest : string) :
  Text c = "//" ++ tag ++ ":" ++ rest ->
  newName tag c fn = Ok (TrimSpace rest)
  /\ (forall ws1 name ws2,
        rest = ws1 ++ name ++ ws2 ->
        allSpace ws1 = true -> allSpace ws2 = true -> edgesPlain name = true ->
        newName tag c fn = Ok name)
  /\ (forall (State : Type) genFn file st,
        tagComment file tag fn = Ok (Some c) ->
        visitFuncDecl State genFn file tag fn st = genFn (TrimSpace rest) fn (fst st))
  /\ (forall fmt_struct file buf e tpd tpu rd ru pd pu retd retv,
        tagComment file tag fn = Ok (Some c) ->
        generateTypeParams fmt_struct (TypeParams (FuncDecl_Type fn)) = Ok (tpd, tpu) ->
        generateReceiver fmt_struct (Recv fn) = Ok (rd, ru) ->
        generateParams fmt_struct (Params (FuncDecl_Type fn)) = Ok (pd, pu) ->
        generateReturns fmt_struct (Results (FuncDecl_Type fn)) = Ok (retd, retv) ->
        visitFuncDecl string (generateMust fmt_struct) file tag fn (buf, e) =
          Ok (buf
              ++ ("// " ++ TrimSpace rest ++ " has the behavior of " ++ FuncDecl_Name fn
                        ++ ", except it panics any error" ++ nl)
              ++ ("func " ++ rd ++ " " ++ TrimSpace rest ++ tpd ++ "(" ++ pd ++ ") ("
                          ++ Join (removelast retd) "," ++ ") {" ++ nl)
              ++ (Join retv "," ++ " := " ++ ru ++ FuncDecl_Name fn ++ tpu
                                ++ "(" ++ pu ++ ")" ++ nl
                                ++ "if err!=nil{panic(err)}" ++ nl)
              ++ (if (0 <? length (removelast retv))%nat
                  then "return " ++ Join (removelast retv) "," else "")
              ++ "}" ++ nl ++ nl,
              None)).
Proof.
  intro HText.
  assert (Hname : newName tag c fn = Ok (TrimSpace rest)).
  { unfold newName. rewrite HText.
    change ("//" ++ tag ++ ":" ++ rest) with (("//" ++ tag) ++ ":" ++ rest).
    rewrite TrimPrefix_app. reflexivity. }
  assert (Hvisit : forall (State : Type) genFn file st,
             tagComment file tag fn = Ok (Some c) ->
             visitFuncDecl State genFn file tag fn st = genFn (TrimSpace rest) fn (fst st)).
  { intros State genFn file st Htag.
    unfold visitFuncDecl. rewrite Htag. simpl. rewrite Hname. reflexivity. }
  split; [exact Hname |]. split; [| split; [exact Hvisit |]].
  - intros ws1 name ws2 -> H1 H2 Hplain.
    rewrite Hname. now rewrite TrimSpace_ascii.
  - intros fmt_struct file buf e tpd tpu rd ru pd pu retd retv
           Htag Htp Hrecv Hparams Hrets.
    rewrite (Hvisit _ _ _ _ Htag). cbn [fst].
    now apply generateMust_text.
Qed.

(** [//@gen_must: SafeDivide] on [Divide] names the wrapper [SafeDivide],
    and this is the name in the text written for it. *)
Lemma C6_explicit_name_witness :
  newName "@gen_must" (mkComment 44%Z "//@gen_must: SafeDivide") Divide = Ok "SafeDivide"
  /\ visitFuncDecl string (generateMust fmt_none) file_SafeDivide "@gen_must" Divide
       ("", None)
     = Ok ("// SafeDivide has the behavior of Divide, except it panics any error" ++ nl
           ++ "func  SafeDivide(a int) (int) {" ++ nl
           ++ "var0,err := Divide(a)" ++ nl
           ++ "if err!=nil{panic(err)}" ++ nl
           ++ "return var0}" ++ nl ++ nl,
           None).
Proof.
  split.
  - exact (proj1 (proj2 (C6_explicit_name "@gen_must"
                           (mkComment 44%Z "//@gen_must: SafeDivide")
                           Divide " SafeDivide" eq_refl))
             " " "SafeDivide" "" eq_refl eq_refl eq_refl eq_refl).
  - exact (proj2 (proj2 (proj2 (C6_explicit_name "@gen_must"
                                  (mkComment 44%Z "//@gen_must: SafeDivide")
                                  Divide " SafeDivide" eq_refl)))
             fmt_none file_SafeDivide "" None "" "" "" "" "a int" "a"
             ["int"; "error"] ["var0"; "err"]
             eq_refl eq_refl eq_refl eq_refl eq_refl).
Defined.

Lemma ToUpper1_ascii (c : ascii) :
  (byte c < 128)%N ->
  ToUpper1 c = String (upper c) "".
Proof.
  intro H. unfold ToUpper1, upper, isLower.
  apply N.ltb_lt in H. rewrite H.
  destruct ((97 <=? byte c) && (byte c <=? 122))%N; reflexivity.
Qed.

Lemma upper_fixed_iff (c : ascii) : upper c = c <-> isLower c = false.
Proof.
  destruct c as [[] [] [] [] [] [] [] []]; vm_compute; split; congruence.
Qed.

(** What the code computes with an empty remainder after the marker
    prefix, for a name whose first byte is ASCII: [must] followed by the
    name with its first letter upper-cased when that byte is a lower-case
    letter, [Must] followed by the name for any other byte. *)
Lemma newName_default_ascii (tag : string) (cm : Comment) (fn : FuncDecl)
    (c : ascii) (rest : string) :
  Text cm = "//" ++ tag ->
  FuncDecl_Name fn = String c rest ->
  (byte c < 128)%N ->
  newName tag cm fn =
    Ok (if isLower c then "must" ++ String (upper c) rest
        else "Must" ++ String c rest).
Proof.
  intros HText HName Hc.
  unfold newName. rewrite HText.
  cbv zeta. rewrite TrimPrefix_self. simpl.
  rewrite HName. unfold mustName.
  rewrite (ToUpper1_ascii c Hc).
  destruct (isLower c) eqn:Hl.
  - assert (Hneq : upper c <> c).
    { intro Heq. apply upper_fixed_iff in Heq. congruence. }
    assert (Hs : (String (upper c) "" =? String c "")%string = false).
    { apply String.eqb_neq. intro Heq. injection Heq. exact Hneq. }
    rewrite Hs. reflexivity.
  - apply upper_fixed_iff in Hl. rewrite Hl.
    rewrite String.eqb_refl. reflexivity.
Qed.

(** [doThing] becomes [mustDoThing]. *)
Lemma newName_default_ascii_doThing :
  newName "@gen_must" (mkComment 44%Z "//@gen_must")
          (mkFuncDecl None "doThing" (mkFuncType None None None) None)
  = Ok "mustDoThing".
Proof.
  refine (newName_default_ascii "@gen_must" (mkComment 44%Z "//@gen_must")
            (mkFuncDecl None "doThing" (mkFuncType None None None) None)
            "d"%char "oThing" eq_refl eq_refl _).
  reflexivity.
Defined.

(** C4. The test [strings.ToUpper(f) == f] on the first byte of the name
    takes every byte that upper-casing leaves alone for an upper-case
    letter.  The function [_helper], which is not exported and whose
    first character is not upper-case, gets the exported name
    [Must_helper] where the specification derives [must_helper]; and for
    a name that begins with an upper-case letter of two bytes the byte
    [f] is no character, upper-casing turns it into U+FFFD, and the name
    is [must], U+FFFD and the rest of the bytes where the specification
    derives [Must] and the name. *)
Theorem C4_mustName_first_byte :
  (isUpper "_"%char = false
   /\ derivedName "_helper" = Some "must_helper"
   /\ mustName "_helper" = Ok "Must_helper"
   /\ newName "@gen_must" (mkComment 44%Z "//@gen_must") underscore_helper
      = Ok "Must_helper"
   /\ firstUpper "_helper" = false /\ firstUpper "Must_helper" = true)
  /\ (mustName Elan = Ok ("must" ++ U_FFFD ++ drop 1 Elan)
      /\ mustName Elan <> Ok ("Must" ++ Elan))
  /\ ~ (forall name d, derivedName name = Some d -> mustName name = Ok d).
Proof.
  split; [repeat split | split; [split; [reflexivity | discriminate] |]].
  intro H. specialize (H "_helper" "must_helper" eq_refl).
  vm_compute in H. discriminate H.
Qed.

(** ** The tag scanner *)

Lemma firstCommentIn_body (b : BlockStmt) (l : list Comment) :
  firstCommentIn (Some b) l = Ok (find (inSpan b) l).
Proof.
  induction l as [| j rest IH]; simpl.
  - reflexivity.
  - unfold inSpan at 1.
    destruct ((Lbrace b <=? Comment_Pos j)%Z && (Comment_Pos j <=? Rbrace b)%Z);
      [reflexivity | exact IH].
Qed.

Lemma find_app {A : Type} (f : A -> bool) (l1 l2 : list A) :
  find f (l1 ++ l2)%list =
  match find f l1 with Some x => Some x | None => find f l2 end.
Proof.
  induction l1 as [| x l1 IH]; simpl; [reflexivity |].
  destruct (f x); [reflexivity | exact IH].
Qed.

(** The two loops find the first comment of the file within the span. *)
Lemma firstComment_body (b : BlockStmt) (groups : list CommentGroup) :
  firstComment (Some b) groups = Ok (find (inSpan b) (flat_map Group_List groups)).
Proof.
  induction groups as [| g rest IH]; simpl.
  - reflexivity.
  - rewrite firstCommentIn_body, find_app. simpl.
    destruct (find (inSpan b) (Group_List g)); [reflexivity | exact IH].
Qed.

Lemma firstCommentIn_nil_body (l : list Comment) :
  firstCommentIn None l = match l with [] => Ok None | _ :: _ => Panic end.
Proof. destruct l; reflexivity. Qed.

(** Without a body the search panics at the first comment of the file. *)
Lemma firstComment_nil_body (groups : list CommentGroup) :
  firstComment None groups =
  match flat_map Group_List groups with [] => Ok None | _ :: _ => Panic end.
Proof.
  induction groups as [| g rest IH]; simpl.
  - reflexivity.
  - destruct (Group_List g) as [| j l]; simpl; [exact IH | reflexivity].
Qed.

Lemma find_existsb {A : Type} (f : A -> bool) (l : list A) :
  existsb f l = match find f l with Some _ => true | None => false end.
Proof.
  induction l as [| x l IH]; simpl; [reflexivity |].
  destruct (f x); [reflexivity | exact IH].
Qed.

(** The scan of one declaration, case by case. *)
Lemma tagComment_cases (file : File) (tag : string) (fn : FuncDecl) :
  tagComment file tag fn =
  match Body fn with
  | None => match allComments file with [] => Ok None | _ :: _ => Panic end
  | Some b =>
      match firstCommentWithin file b with
      | None => Ok None
      | Some c =>
          match firstNode b with
          | None => Panic
          | Some n =>
              if (Stmt_Pos n <? Comment_Pos c)%Z then Ok None
              else if HasPrefix (Text c) ("//" ++ tag) then Ok (Some c) else Ok None
          end
      end
  end.
Proof.
  unfold tagComment, firstCommentWithin, allComments.
  destruct (Body fn) as [b |].
  - rewrite firstComment_body. cbn [bind]. cbv zeta.
    destruct (find (inSpan b) (flat_map Group_List (Comments file))) as [c |];
      [| reflexivity].
    destruct (firstNode b) as [n |]; [| reflexivity].
    destruct (Stmt_Pos n <? Comment_Pos c)%Z; [reflexivity |].
    destruct (HasPrefix (Text c) ("//" ++ tag)); reflexivity.
  - rewrite firstComment_nil_body.
    destruct (flat_map Group_List (Comments file)); reflexivity.
Qed.






(** C10 as amended. The scan of a declaration is defined exactly when
    the file has no comment at all, or the declaration has a body and the
    body has a node whenever a comment of the file falls within its span.
    It panics on a declaration without a body as soon as the file has a
    comment, and on a body without a node that a comment falls within. *)
Theorem C10_scan_defined (file : File) (tag : string) (fn : FuncDecl) :
  (tagComment file tag fn <> Panic <->
   allComments file = [] \/ bodyScannable file fn = true)
  /\ (Body fn = None -> allComments file <> [] -> tagComment file tag fn = Panic)
  /\ (forall b c, Body fn = Some b -> Block_List b = [] ->
        In c (allComments file) -> inSpan b c = true ->
        tagComment file tag fn = Panic).
Proof.
  rewrite tagComment_cases. unfold bodyScannable, firstCommentWithin, firstNode.
  split; [| split].
  - destruct (Body fn) as [b |].
    + rewrite find_existsb.
      destruct (find (inSpan b) (allComments file)) as [c |] eqn:Hc; simpl.
      * destruct (Block_List b) as [| n l]; split; intro H.
        -- now contradiction H.
        -- exfalso. destruct H as [H | H]; [rewrite H in Hc | ]; simpl in *; discriminate.
        -- now right.
        -- destruct (Stmt_Pos n <? Comment_Pos c)%Z; [discriminate |].
           match goal with |- context [if ?x then _ else _] => destruct x end;
             discriminate.
      * split; intro H; [now right | discriminate].
    + destruct (allComments file); split; intro H.
      * now left.
      * discriminate.
      * now contradiction H.
      * destruct H as [H | H]; discriminate.
  - intros -> Hne. destruct (allComments file); [now contradiction Hne | reflexivity].
  - intros b c -> Hnil Hin Hspan. rewrite Hnil.
    destruct (find (inSpan b) (allComments file)) eqn:Hf; [reflexivity |].
    apply (find_none _ _ Hf) in Hin. congruence.
Qed.

(** C10 as the specification states it asks for a body on every
    declaration: a declaration without a body in a file without comments
    is scanned without a panic. *)
Lemma C10_counterexample :
  ~ (forall file tag fn, tagComment file tag fn <> Panic -> bodyScannable file fn = true).
Proof.
  intro H.
  specialize (H file_external "@gen_must" external_add).
  assert (Hdef : tagComment file_external "@gen_must" external_add <> Panic)
    by (vm_compute; discriminate).
  specialize (H Hdef). vm_compute in H. discriminate H.
Qed.

(** ** The results extractor *)

Section Results.

Variable fmt_struct : Expr -> string.

Lemma varNames_cons (i n : nat) :
  varNames i (S n) = ("var" ++ itoa i) :: varNames (S i) n.
Proof. reflexivity. Qed.

Lemma returnsLoop_cases (l : list Field) :
  forall (i : nat) (names types : list string),
    returnsLoop fmt_struct l i names types =
    if forallb (reconstructs fmt_struct) l
    then Ok ((names ++ varNames i (length l))%list,
             (types ++ map (fun f => typeText fmt_struct (Field_Type f)) l)%list)
    else Fail errUnknownFieldType.
Proof.
  induction l as [| ret rest IH]; intros i names types.
  - simpl. now rewrite !app_nil_r.
  - cbn [returnsLoop forallb length map]. rewrite varNames_cons.
    unfold reconstructs at 1, typeText at 1.
    destruct (generateType_outcome fmt_struct (Field_Type ret)) as [[t ->] | ->];
      cbn [bind isOk andb]; [| reflexivity].
    rewrite IH.
    destruct (forallb (reconstructs fmt_struct) rest); [| reflexivity].
    now rewrite <- !app_assoc.
Qed.

(** The extractor, case by case. *)
Lemma generateReturns_cases (rets : FieldList) :
  generateReturns fmt_struct rets =
  match rets with
  | None | Some [] => Fail errNoReturnValues
  | Some l =>
      if forallb (reconstructs fmt_struct) l then
        if (last (map (fun f => typeText fmt_struct (Field_Type f)) l) "" =? "error")%string
        then Ok (map (fun f => typeText fmt_struct (Field_Type f)) l,
                 setLast (varNames 0 (length l)) "err")
        else Fail errNoErrorReturn
      else Fail errUnknownFieldType
  end.
Proof.
  destruct rets as [[| f l] |]; try reflexivity.
  unfold generateReturns. rewrite returnsLoop_cases.
  destruct (forallb (reconstructs fmt_struct) (f :: l)); [| reflexivity].
  cbn [bind app].
  destruct (last (map (fun f0 => typeText fmt_struct (Field_Type f0)) (f :: l)) "" =? "error")%string;
    reflexivity.
Qed.

Lemma map_removelast {A B : Type} (g : A -> B) (l : list A) :
  removelast (map g l) = map g (removelast l).
Proof.
  induction l as [| x l IH]; [reflexivity |].
  destruct l as [| y l]; [reflexivity |].
  change (g x :: removelast (map g (y :: l)) = g x :: map g (removelast (y :: l))).
  now rewrite IH.
Qed.

Lemma length_removelast {A : Type} (l : list A) :
  length (removelast l) = length l - 1.
Proof.
  induction l as [| x l IH]; [reflexivity |].
  destruct l as [| y l]; [reflexivity |].
  change (S (length (removelast (y :: l))) = S (length (y :: l)) - 1).
  rewrite IH. simpl. lia.
Qed.

(** What a successful extraction returns for a result list of [k]
    fields: the [k] reconstructed types, the last being [error], and a
    wrapper result declaration made of the first [k-1]. *)
Lemma generateReturns_Ok (l : list Field) (types names : list string) :
  generateReturns fmt_struct (Some l) = Ok (types, names) ->
  types = map (fun f => typeText fmt_struct (Field_Type f)) l
  /\ last types "" = "error"
  /\ removelast types = map (fun f => typeText fmt_struct (Field_Type f)) (removelast l)
  /\ length (removelast types) = length l - 1.
Proof.
  rewrite generateReturns_cases.
  destruct l as [| f l]; [discriminate |].
  destruct (forallb (reconstructs fmt_struct) (f :: l)); [| discriminate].
  destruct (last (map (fun f0 => typeText fmt_struct (Field_Type f0)) (f :: l)) "" =? "error")%string
    eqn:Hlast; [| discriminate].
  intro H. injection H as <- <-.
  apply String.eqb_eq in Hlast.
  split; [reflexivity |]. split; [exact Hlast |]. split.
  - exact (map_removelast (fun f0 => typeText fmt_struct (Field_Type f0)) (f :: l)).
  - rewrite length_removelast. simpl. now rewrite length_map.
Qed.

(** Every failure of an extractor ends the process or is a panic:
    [generateMust] does not return. *)
Lemma generateMust_fatal (newName : string) (fn : FuncDecl) (buf : string) :
  isOk (generateReturns fmt_struct (Results (FuncDecl_Type fn))) = false ->
  isOk (generateMust fmt_struct newName fn buf) = false.
Proof.
  intro H. unfold generateMust.
  destruct (generateTypeParams fmt_struct (TypeParams (FuncDecl_Type fn)))
    as [[? ?] | | |]; try reflexivity.
  destruct (generateReceiver fmt_struct (Recv fn)) as [[? ?] | | |]; try reflexivity.
  destruct (generateParams fmt_struct (Params (FuncDecl_Type fn)))
    as [[? ?] | | |]; try reflexivity.
  cbn [showError bind].
  apply isOk_bind. now rewrite isOk_showError.
Qed.

Lemma generateMust_Exit (newName : string) (fn : FuncDecl) (buf : string) (e : error) :
  isOk (generateTypeParams fmt_struct (TypeParams (FuncDecl_Type fn))) = true ->
  isOk (generateReceiver fmt_struct (Recv fn)) = true ->
  isOk (generateParams fmt_struct (Params (FuncDecl_Type fn))) = true ->
  generateReturns fmt_struct (Results (FuncDecl_Type fn)) = Fail e ->
  generateMust fmt_struct newName fn buf = Exit e.
Proof.
  intros H1 H2 H3 H4. unfold generateMust.
  destruct (generateTypeParams fmt_struct (TypeParams (FuncDecl_Type fn)))
    as [[? ?] | | |]; try discriminate.
  destruct (generateReceiver fmt_struct (Recv fn)) as [[? ?] | | |]; try discriminate.
  destruct (generateParams fmt_struct (Params (FuncDecl_Type fn)))
    as [[? ?] | | |]; try discriminate.
  rewrite H4. reflexivity.
Qed.

End Results.

(** ** The walk *)

Section WalkProperties.

Variable State : Type.
Variable genFn : string -> FuncDecl -> State -> outcome (State * option error).

Lemma inspectDecls_app (file : File) (tag : string) (d1 d2 : list Decl) :
  forall st,
    inspectDecls State genFn file tag (d1 ++ d2) st =
    (st' <- inspectDecls State genFn file tag d1 st ;;
     inspectDecls State genFn file tag d2 st').
Proof.
  induction d1 as [| d d1 IH]; intro st.
  - reflexivity.
  - destruct d as [fn |]; cbn [inspectDecls app].
    + destruct (visitFuncDecl State genFn file tag fn st); cbn [bind];
        [apply IH | reflexivity ..].
    + apply IH.
Qed.

(** A declaration whose visit does not return keeps the walk of its
    file from returning. *)
Lemma inspectDecls_not_Ok (file : File) (tag : string) (fn : FuncDecl)
    (decls : list Decl) :
  In (FuncDeclNode fn) decls ->
  (forall st, isOk (visitFuncDecl State genFn file tag fn st) = false) ->
  forall st, isOk (inspectDecls State genFn file tag decls st) = false.
Proof.
  intros Hin Hfn.
  induction decls as [| d decls IH]; [contradiction Hin |].
  intro st. destruct Hin as [-> | Hin].
  - cbn [inspectDecls]. apply isOk_bind, Hfn.
  - destruct d as [fn' |]; cbn [inspectDecls].
    + destruct (visitFuncDecl State genFn file tag fn' st); cbn [bind];
        [now apply IH | reflexivity ..].
    + now apply IH.
Qed.

Lemma walkFiles_not_Ok (files : list File) (file : File) (tag : string) :
  In file files ->
  (forall st, isOk (inspectDecls State genFn file tag (Decls file) st) = false) ->
  forall s, isOk (walkFiles State genFn files tag s) = false.
Proof.
  intros Hin Hfile.
  induction files as [| f files IH]; [contradiction Hin |].
  intro s. destruct Hin as [-> | Hin].
  - cbn [walkFiles]. apply isOk_bind, Hfile.
  - cbn [walkFiles].
    destruct (inspectDecls State genFn f tag (Decls f) (s, None))
      as [[s' [e |]] | | |]; cbn [bind]; try reflexivity.
    now apply IH.
Qed.

End WalkProperties.

Lemma forallb_false_In {A : Type} (p : A -> bool) (l : list A) :
  forallb p l = false -> exists x, In x l /\ p x = false.
Proof.
  induction l as [| x l IH]; simpl; [discriminate |].
  destruct (p x) eqn:Hx; simpl.
  - intro H. destruct (IH H) as (y & Hin & Hy). exists y. auto.
  - intros _. exists x. auto.
Qed.

(** C2 as amended. The results extractor fails with
    [errNoReturnValues] exactly when the result list is absent or empty.
    It fails with [errNoErrorReturn] exactly when the list is not empty,
    the type of every result reconstructs, and the text reconstructed for
    the last one is not [error].  It fails with [errUnknownFieldType]
    exactly when some result has a type that does not reconstruct,
    whatever the last result is, and it never panics.  For a tagged
    declaration a failure of
    the extractor is never a skip: [generateMust] does not return, it ends
    the process with that error once the other extractors have
    succeeded, and the run has no output. *)
Theorem C2_results_errors (fmt_struct : Expr -> string) (rets : FieldList) :
  (generateReturns fmt_struct rets = Fail errNoReturnValues <->
   rets = None \/ rets = Some [])
  /\ (generateReturns fmt_struct rets = Fail errNoErrorReturn <->
      exists l, rets = Some l /\ l <> [] /\
                forallb (reconstructs fmt_struct) l = true /\
                last (map (fun f => typeText fmt_struct (Field_Type f)) l) "" <> "error")
  /\ (generateReturns fmt_struct rets = Fail errUnknownFieldType <->
      exists l f, rets = Some l /\ In f l /\
                  isOk (generateType fmt_struct (Field_Type f)) = false)
  /\ generateReturns fmt_struct rets <> Panic
  /\ (forall e newName fn buf,
        Results (FuncDecl_Type fn) = rets ->
        generateReturns fmt_struct rets = Fail e ->
        isOk (generateMust fmt_struct newName fn buf) = false
        /\ (isOk (generateTypeParams fmt_struct (TypeParams (FuncDecl_Type fn))) = true ->
            isOk (generateReceiver fmt_struct (Recv fn)) = true ->
            isOk (generateParams fmt_struct (Params (FuncDecl_Type fn))) = true ->
            generateMust fmt_struct newName fn buf = Exit e))
  /\ (forall e pkg file fn c,
        Results (FuncDecl_Type fn) = rets ->
        generateReturns fmt_struct rets = Fail e ->
        In file (Syntax pkg) -> In (FuncDeclNode fn) (Decls file) ->
        tagComment file "@gen_must" fn = Ok (Some c) ->
        isOk (generate fmt_struct pkg) = false).
Proof.
  split; [| split; [| split; [| split; [| split]]]].
  3:{ rewrite generateReturns_cases.
      destruct rets as [[| f l] |].
      - split; [discriminate |]. intros (l & f & Hl & Hin & _).
        injection Hl as <-. contradiction Hin.
      - destruct (forallb (reconstructs fmt_struct) (f :: l)) eqn:Hall.
        + split.
          * destruct (last _ "" =? "error")%string; discriminate.
          * intros (l' & f' & Hl & Hin & Hbad). injection Hl as <-.
            rewrite forallb_forall in Hall. specialize (Hall f' Hin).
            unfold reconstructs in Hall. congruence.
        + split; [| reflexivity]. intros _.
          apply forallb_false_In in Hall. destruct Hall as (f' & Hin & Hbad).
          exists (f :: l), f'. auto.
      - split; [discriminate |]. intros (l & f & Hl & _). discriminate. }
  3:{ rewrite generateReturns_cases.
      destruct rets as [[| f l] |]; try discriminate.
      destruct (forallb (reconstructs fmt_struct) (f :: l)); [| discriminate].
      destruct (last _ "" =? "error")%string; discriminate. }
  - rewrite generateReturns_cases.
    destruct rets as [[| f l] |].
    + split; [now right | reflexivity].
    + destruct (forallb (reconstructs fmt_struct) (f :: l)).
      * destruct (last _ "" =? "error")%string; split; intro H;
          try discriminate; destruct H; discriminate.
      * split; intro H; try discriminate; destruct H; discriminate.
    + split; [now left | reflexivity].
  - rewrite generateReturns_cases.
    destruct rets as [[| f l] |].
    + split; [discriminate |]. intros (l & Hl & Hne & _). injection Hl as <-.
      now contradiction Hne.
    + destruct (forallb (reconstructs fmt_struct) (f :: l)) eqn:Hall.
      * destruct (last _ "" =? "error")%string eqn:Hlast; split.
        -- discriminate.
        -- intros (l' & Hl & _ & _ & Hne). injection Hl as <-.
           apply String.eqb_eq in Hlast. now contradiction Hne.
        -- intros _. exists (f :: l). repeat split; try discriminate.
           ++ exact Hall.
           ++ now apply String.eqb_neq.
        -- reflexivity.
      * split; [discriminate |].
        intros (l' & Hl & _ & Hall' & _). injection Hl as <-. congruence.
    + split; [discriminate |]. intros (l & Hl & _). discriminate.
  - intros e newName fn buf Hrets Hfail. subst rets. split.
    + apply generateMust_fatal. now rewrite Hfail.
    + intros H1 H2 H3. now apply generateMust_Exit.
  - intros e pkg file fn c Hrets Hfail Hfile Hfn Htag. subst rets.
    unfold generate. rewrite isOk_showError. unfold walkCode.
    apply (walkFiles_not_Ok _ _ _ file); [exact Hfile |].
    apply (inspectDecls_not_Ok _ _ _ _ fn); [exact Hfn |].
    intro st. unfold visitFuncDecl. rewrite Htag. cbn [bind].
    destruct (newName "@gen_must" c fn); cbn [bind]; try reflexivity.
    apply generateMust_fatal. now rewrite Hfail.
Qed.

(** [func F() (int, int)]: the last result is not [error]. *)
Lemma C2_results_errors_witness :
  generateReturns fmt_none (Some [mkField [] int; mkField [] int]) = Fail errNoErrorReturn.
Proof.
  refine (proj2 (proj1 (proj2 (C2_results_errors fmt_none
                                 (Some [mkField [] int; mkField [] int])))) _).
  exists [mkField [] int; mkField [] int].
  split; [reflexivity |]. split; [discriminate |]. split; [reflexivity |].
  vm_compute. discriminate.
Defined.

(** C2 as the specification states it fails on [([]byte, int)]: the list
    is not empty and the text of its last result is [int], but the first
    result does not reconstruct and the error is [errUnknownFieldType]. *)
Lemma C2_counterexample :
  ~ (forall (fmt_struct : Expr -> string) (rets : FieldList),
       generateReturns fmt_struct rets = Fail errNoErrorReturn <->
       exists l, rets = Some l /\ l <> [] /\
                 last (map (fun f => typeText fmt_struct (Field_Type f)) l) "" <> "error").
Proof.
  intro H.
  destruct (H fmt_none results_bytes_int) as [_ Hback].
  assert (Hfail : generateReturns fmt_none results_bytes_int = Fail errNoErrorReturn).
  { apply Hback.
    exists [mkField [] (ArrayType None (Ident "byte")); mkField [] int].
    split; [reflexivity |]. split; [discriminate |]. vm_compute. discriminate. }
  vm_compute in Hfail. discriminate Hfail.
Qed.

(** ** The output buffer *)

Section Output.

Variable fmt_struct : Expr -> string.

(** A call that returns has appended a text that does not depend on the
    buffer, and has returned a nil error. *)
Lemma generateMust_appends (name : string) (fn : FuncDecl) (buf : string)
    (r : string * option error) :
  generateMust fmt_struct name fn buf = Ok r ->
  exists text, forall b, generateMust fmt_struct name fn b = Ok (b ++ text, None).
Proof.
  unfold generateMust.
  destruct (generateTypeParams fmt_struct (TypeParams (FuncDecl_Type fn)))
    as [[tpd tpu] | | |]; try discriminate.
  destruct (generateReceiver fmt_struct (Recv fn)) as [[rd ru] | | |]; try discriminate.
  destruct (generateParams fmt_struct (Params (FuncDecl_Type fn)))
    as [[pd pu] | | |]; try discriminate.
  destruct (generateReturns fmt_struct (Results (FuncDecl_Type fn)))
    as [[retd retv] | | |]; try discriminate.
  intros _. eexists. intro b. reflexivity.
Qed.

Lemma visitFuncDecl_appends (file : File) (tag : string) (fn : FuncDecl)
    (buf buf' : string) (err err' : option error) :
  visitFuncDecl string (generateMust fmt_struct) file tag fn (buf, err) = Ok (buf', err') ->
  buf' = buf ++ emitted fmt_struct file tag (FuncDeclNode fn)
  /\ (err = None -> err' = None).
Proof.
  unfold emitted, visitFuncDecl.
  destruct (tagComment file tag fn) as [[c |] | | |]; cbn [bind]; try discriminate.
  - destruct (newName tag c fn) as [name | | |]; cbn [bind fst]; try discriminate.
    intro H. destruct (generateMust_appends _ _ _ _ H) as [text Htext].
    rewrite Htext in H. rewrite (Htext ""). injection H as <- <-.
    split; [reflexivity | reflexivity].
  - intro H. injection H as <- <-. split; [now rewrite string_app_nil_r | tauto].
Qed.

Lemma inspectDecls_appends (file : File) (tag : string) (decls : list Decl) :
  forall buf buf' err',
    inspectDecls string (generateMust fmt_struct) file tag decls (buf, None)
      = Ok (buf', err') ->
    buf' = buf ++ flatten (map (emitted fmt_struct file tag) decls) /\ err' = None.
Proof.
  induction decls as [| d decls IH]; intros buf buf' err'; cbn [inspectDecls map flatten fold_right].
  - intro H. injection H as <- <-. split; [now rewrite string_app_nil_r | reflexivity].
  - destruct d as [fn |].
    + intro H. apply bind_Ok_inv in H. destruct H as ([b1 e1] & Hv & Hrest).
      apply visitFuncDecl_appends in Hv. destruct Hv as [-> He1].
      rewrite (He1 eq_refl) in Hrest.
      apply IH in Hrest. destruct Hrest as [-> ->].
      split; [now rewrite string_app_assoc | reflexivity].
    + intro H. apply IH in H. exact H.
Qed.

Lemma walkFiles_appends (files : list File) (tag : string) :
  forall buf buf',
    walkFiles string (generateMust fmt_struct) files tag buf = Ok buf' ->
    buf' = buf ++ flatten (map (fun file =>
                     flatten (map (emitted fmt_struct file tag) (Decls file))) files).
Proof.
  induction files as [| file files IH]; intros buf buf'; cbn [walkFiles map flatten fold_right].
  - intro H. injection H as <-. now rewrite string_app_nil_r.
  - intro H. apply bind_Ok_inv in H. destruct H as ([b1 e1] & Hi & Hrest).
    apply inspectDecls_appends in Hi. destruct Hi as [-> ->].
    cbv beta iota in Hrest.
    apply IH in Hrest. rewrite Hrest. now rewrite string_app_assoc.
Qed.

(** C9. The outcome of a run is a function of the loaded package: two
    runs over the same package value end alike, byte for byte.  The buffer
    of a run that returns is the header followed by the wrappers, file by
    file in the order of [pkg.Syntax] and, within a file, declaration by
    declaration in the order the walk meets them. *)
Theorem C9_deterministic_output (pkg : Package) :
  (forall run1 run2 : outcome string,
      generate fmt_struct pkg = run1 -> generate fmt_struct pkg = run2 -> run1 = run2)
  /\ (forall out,
        generate fmt_struct pkg = Ok out ->
        out = generateHead (Package_Name pkg) ""
              ++ flatten (map (fun file =>
                   flatten (map (emitted fmt_struct file "@gen_must") (Decls file)))
                   (Syntax pkg))).
Proof.
  split.
  - intros run1 run2 <- <-. reflexivity.
  - unfold generate, walkCode. intros out H.
    destruct (walkFiles string (generateMust fmt_struct) (Syntax pkg) "@gen_must"
                (generateHead (Package_Name pkg) "")) as [b | | |] eqn:Hw;
      try discriminate.
    injection H as <-. now apply walkFiles_appends.
Qed.

End Output.

(** The run over the package of [Divide] returns, and its buffer is the
    header followed by the one wrapper. *)
Lemma C9_deterministic_output_witness :
  exists out,
    generate fmt_none pkg_Divide = Ok out
    /\ out = generateHead "testpkg" ""
             ++ flatten [flatten [""; emitted fmt_none file_Divide "@gen_must"
                                        (FuncDeclNode Divide)]].
Proof.
  eexists. split; [reflexivity |].
  exact (proj2 (C9_deterministic_output fmt_none pkg_Divide) _ eq_refl).
Defined.

(** ** The generated text on the examples *)

(** C1. [Divide] declares its two parameters in one field, [a, b int].
    The parameter extractor reads the first name of each field only: the
    wrapper declares [a] alone and forwards [a] alone, and [b] appears in
    neither place. *)
Theorem C1_Divide_wrapper :
  NumFields (Params (FuncDecl_Type Divide)) = 2
  /\ generateParams fmt_none (Params (FuncDecl_Type Divide)) = Ok ("a int", "a")
  /\ generate fmt_none pkg_Divide =
     Ok (generateHead "testpkg" ""
         ++ "// MustDivide has the behavior of Divide, except it panics any error" ++ nl
         ++ "func  MustDivide(a int) (int) {" ++ nl
         ++ "var0,err := Divide(a)" ++ nl
         ++ "if err!=nil{panic(err)}" ++ nl
         ++ "return var0}" ++ nl ++ nl).
Proof. repeat split. Qed.

(** C5. [Pair] has three results, [(a, b int, err error)], in two fields.
    The results extractor counts fields: the wrapper declares one result
    and assigns two variables from a call that returns three values. *)
Theorem C5_Pair_wrapper :
  NumFields (Results (FuncDecl_Type Pair)) = 3
  /\ generateReturns fmt_none (Results (FuncDecl_Type Pair))
     = Ok (["int"; "error"], ["var0"; "err"])
  /\ generateMust fmt_none "MustPair" Pair "" =
     Ok ("// MustPair has the behavior of Pair, except it panics any error" ++ nl
         ++ "func  MustPair() (int) {" ++ nl
         ++ "var0,err := Pair()" ++ nl
         ++ "if err!=nil{panic(err)}" ++ nl
         ++ "return var0}" ++ nl ++ nl,
         None).
Proof. repeat split. Qed.

(** * Further properties *)

(** ** The type reconstructor *)

Section ReconstructorFacts.

Variable fmt_struct : Expr -> string.

(** X1. The type reconstructor returns a text or fails with
    [errUnknownFieldType]: on no type expression does it panic, end the
    process, or return another error. *)
Theorem X1_generateType_outcomes (e : Expr) :
  generateType fmt_struct e <> Panic
  /\ (forall err, generateType fmt_struct e <> Exit err)
  /\ (forall err, generateType fmt_struct e = Fail err -> err = errUnknownFieldType).
Proof.
  destruct (generateType_outcome fmt_struct e) as [[s H] | H]; rewrite H.
  - repeat split; intros; discriminate.
  - repeat split; intros; try discriminate. congruence.
Qed.

End ReconstructorFacts.

Lemma generateTypes_printsNames (f1 f2 : Expr -> string) (l : list Expr) :
  Forall (fun e => printsNames e = true -> generateType f1 e = generateType f2 e) l ->
  forallb printsNames l = true ->
  forall acc, generateTypes f1 l acc = generateTypes f2 l acc.
Proof.
  induction 1 as [| i rest Hi _ IH]; intros Hall acc; simpl.
  - reflexivity.
  - simpl in Hall. apply andb_true_iff in Hall. destruct Hall as [Hp Hrest].
    rewrite (Hi Hp). destruct (generateType f2 i); simpl; try reflexivity.
    now apply IH.
Qed.

(** X2. When every variadic element and every operand of a unary
    operator in a type is an identifier, the reconstructed text does not
    depend on what [fmt] prints for a node by reflection: the syntax
    alone fixes it. *)
Theorem X2_generateType_syntax_only (f1 f2 : Expr -> string) (e : Expr) :
  printsNames e = true ->
  generateType f1 e = generateType f2 e.
Proof.
  induction e as [X IHX | n | Elt | X Op Y IHX IHY | Op X | X Idx IHX IHI
                  | X Is IHX IHIs | | | | | ] using Expr_reconstructed_ind;
    intro Hp; try reflexivity.
  - simpl in *. now rewrite (IHX Hp).
  - destruct Elt; try discriminate Hp. reflexivity.
  - simpl in Hp. apply andb_true_iff in Hp. destruct Hp as [HpX HpY].
    simpl. now rewrite (IHX HpX), (IHY HpY).
  - destruct X; try discriminate Hp. reflexivity.
  - simpl in Hp. apply andb_true_iff in Hp. destruct Hp as [HpX HpI].
    simpl. now rewrite (IHX HpX), (IHI HpI).
  - rewrite !generateType_IndexListExpr.
    cbn [printsNames] in Hp. apply andb_true_iff in Hp. destruct Hp as [HpX HpIs].
    rewrite (IHX HpX).
    assert (Hall : forallb printsNames Is = true).
    { clear - HpIs. induction Is as [| i rest IH]; [reflexivity |].
      simpl. apply andb_true_iff in HpIs. destruct HpIs as [Hi Hrest].
      now rewrite Hi, IH. }
    now rewrite (generateTypes_printsNames f1 f2 Is IHIs Hall).
Qed.

(** [*TypeC[K, ...V]] is printed alike by any two renderings. *)
Lemma X2_generateType_syntax_only_witness :
  generateType fmt_none
    (StarExpr (IndexListExpr (Ident "TypeC") [Ident "K"; Ellipsis (Ident "V")]))
  = generateType (fun _ => "&{}")
      (StarExpr (IndexListExpr (Ident "TypeC") [Ident "K"; Ellipsis (Ident "V")])).
Proof.
  apply (X2_generateType_syntax_only fmt_none (fun _ => "&{}")). reflexivity.
Defined.

(** ** The parameter extractors *)

Section FieldFacts.

Variable fmt_struct : Expr -> string.

Lemma fieldsLoop_Ok (l : list Field) :
  forallb named l = true -> forallb (reconstructs fmt_struct) l = true ->
  forall names types,
    fieldsLoop fmt_struct l names types =
    Ok ((names ++ map firstName l)%list, (types ++ map (paramDecl fmt_struct) l)%list).
Proof.
  induction l as [| f rest IH]; intros Hn Hr names types.
  - simpl. now rewrite !app_nil_r.
  - simpl in Hn, Hr. apply andb_true_iff in Hn, Hr.
    destruct Hn as [Hf Hn], Hr as [Hrf Hr].
    cbn [fieldsLoop map]. unfold named in Hf. unfold paramDecl at 1, firstName at 1 3.
    destruct (Field_Names f) as [| n ns]; [discriminate |]. cbn [index0 bind hd].
    unfold reconstructs in Hrf. unfold typeText at 1.
    destruct (generateType fmt_struct (Field_Type f)) as [t | | |]; try discriminate.
    cbn [bind]. rewrite (IH Hn Hr). now rewrite <- !app_assoc.
Qed.

(** The loop stops at the first field without a name or with a type
    that does not reconstruct; the name is read first. *)
Lemma fieldsLoop_stops (good : list Field) (f : Field) (rest : list Field) :
  forallb named good = true -> forallb (reconstructs fmt_struct) good = true ->
  forall names types,
    fieldsLoop fmt_struct (good ++ f :: rest) names types =
    (n <- index0 (Field_Names f) ;;
     t <- generateType fmt_struct (Field_Type f) ;;
     fieldsLoop fmt_struct rest
       (names ++ map firstName good ++ [n])%list
       (types ++ map (paramDecl fmt_struct) good ++ [(n ++ " " ++ t)%string])%list).
Proof.
  induction good as [| g good IH]; intros Hn Hr names types.
  - reflexivity.
  - simpl in Hn, Hr. apply andb_true_iff in Hn, Hr.
    destruct Hn as [Hg Hn], Hr as [Hrg Hr].
    cbn [fieldsLoop app map]. unfold named in Hg. unfold paramDecl at 1, firstName at 1 3.
    destruct (Field_Names g) as [| m ms]; [discriminate |]. cbn [index0 bind hd].
    unfold reconstructs in Hrg. unfold typeText at 1.
    destruct (generateType fmt_struct (Field_Type g)) as [t | | |]; try discriminate.
    cbn [bind]. rewrite (IH Hn Hr).
    destruct (Field_Names f) as [| nf nfs]; cbn [index0 bind]; [reflexivity |].
    destruct (generateType fmt_struct (Field_Type f)); cbn [bind]; try reflexivity.
    now rewrite <- !app_assoc.
Qed.

(** X3. When every parameter field declares a name and has a type that
    reconstructs, the parameter extractor returns the declaration text
    [name Type] of each field and the first name of each field, both
    joined by commas in the order of the list; an absent or empty list
    gives two empty texts. *)
Theorem X3_generateParams_texts (l : list Field) :
  forallb named l = true -> forallb (reconstructs fmt_struct) l = true ->
  generateParams fmt_struct (Some l) =
    Ok (Join (map (paramDecl fmt_struct) l) ",", Join (map firstName l) ",")
  /\ generateParams fmt_struct None = Ok ("", "").
Proof.
  intros Hn Hr. split; [| reflexivity].
  destruct l as [| f rest]; [reflexivity |].
  unfold generateParams. now rewrite (fieldsLoop_Ok _ Hn Hr).
Qed.

Lemma generateParams_loop (l : list Field) :
  l <> [] ->
  generateParams fmt_struct (Some l) =
  (r <- fieldsLoop fmt_struct l [] [] ;;
   Ok (Join (snd r) ",", Join (fst r) ",")).
Proof.
  destruct l as [| f rest]; [intro H; now contradiction H |].
  intros _. unfold generateParams.
  destruct (fieldsLoop fmt_struct (f :: rest) [] []) as [[names types] | | |]; reflexivity.
Qed.

(** X4. The parameter extractor stops at the first field that has no
    name or whose type does not reconstruct.  A field without a name, as
    in [func F(int) error], is a panic at [Names[0]], whatever its type;
    a named field whose type does not reconstruct is
    [errUnknownFieldType].  What follows the field plays no part. *)
Theorem X4_generateParams_failures (good : list Field) (f : Field) (rest : list Field) :
  forallb named good = true -> forallb (reconstructs fmt_struct) good = true ->
  (Field_Names f = [] ->
   generateParams fmt_struct (Some (good ++ f :: rest)%list) = Panic)
  /\ (named f = true -> reconstructs fmt_struct f = false ->
      generateParams fmt_struct (Some (good ++ f :: rest)%list) = Fail errUnknownFieldType).
Proof.
  intros Hn Hr.
  assert (Hne : (good ++ f :: rest)%list <> []) by (destruct good; discriminate).
  rewrite (generateParams_loop _ Hne), (fieldsLoop_stops _ _ _ Hn Hr).
  split.
  - intro Hf. rewrite Hf. reflexivity.
  - intros Hf Hrf.
    unfold named in Hf. destruct (Field_Names f); [discriminate |]. cbn [index0 bind].
    rewrite (generateType_not_Ok fmt_struct _ Hrf). reflexivity.
Qed.

End FieldFacts.

(** [func F(a, b int, s *T)]: [a int,s *T] and [a,s]. *)
Lemma X3_generateParams_texts_witness :
  generateParams fmt_none
    (Some [mkField ["a"; "b"] int; mkField ["s"] (StarExpr (Ident "T"))])
  = Ok ("a int,s *T", "a,s").
Proof.
  exact (proj1 (X3_generateParams_texts fmt_none
                  [mkField ["a"; "b"] int; mkField ["s"] (StarExpr (Ident "T"))]
                  eq_refl eq_refl)).
Defined.

(** [func F(a int, int)]: the second field has no name. *)
Lemma X4_generateParams_failures_witness :
  generateParams fmt_none (Some [mkField ["a"] int; mkField [] int]) = Panic.
Proof.
  exact (proj1 (X4_generateParams_failures fmt_none [mkField ["a"] int] (mkField [] int) []
                  eq_refl eq_refl) eq_refl).
Defined.

Section FieldFacts2.

Variable fmt_struct : Expr -> string.

Lemma fieldsLoop_length (l : list Field) :
  forall names types names' types',
    fieldsLoop fmt_struct l names types = Ok (names', types') ->
    length names' = length names + length l.
Proof.
  induction l as [| f rest IH]; intros names types names' types' H.
  - simpl in H. injection H as <- <-. simpl. lia.
  - cbn [fieldsLoop] in H.
    apply bind_Ok_inv in H. destruct H as (n & _ & H).
    apply bind_Ok_inv in H. destruct H as (t & _ & H).
    apply IH in H. rewrite H, length_app. simpl. lia.
Qed.

(** X5. The type-parameter extractor is the parameter extractor with
    both texts put in square brackets: after the loop over a list that is
    not empty there is always a name, so the test [len(names) > 0] never
    sends it to the empty texts, which only an absent or empty list
    gives. *)
Theorem X5_generateTypeParams_brackets (typeParams : FieldList) :
  generateTypeParams fmt_struct typeParams =
  match typeParams with
  | None | Some [] => Ok ("", "")
  | Some l =>
      r <- generateParams fmt_struct (Some l) ;;
      Ok ("[" ++ fst r ++ "]", "[" ++ snd r ++ "]")
  end.
Proof.
  destruct typeParams as [[| f rest] |]; try reflexivity.
  unfold generateTypeParams, generateParams.
  destruct (fieldsLoop fmt_struct (f :: rest) [] []) as [[names types] | | |] eqn:Hloop;
    try reflexivity.
  cbn [bind]. apply fieldsLoop_length in Hloop.
  destruct names as [| n names]; [simpl in Hloop; lia | reflexivity].
Qed.

Lemma index0_firstn {A : Type} (l : list A) : index0 (firstn 1 l) = index0 l.
Proof. destruct l; reflexivity. Qed.

Lemma fieldsLoop_firstNameOnly (l : list Field) :
  forall names types,
    fieldsLoop fmt_struct (map firstNameOnly l) names types =
    fieldsLoop fmt_struct l names types.
Proof.
  induction l as [| f rest IH]; intros names types; [reflexivity |].
  cbn [map fieldsLoop firstNameOnly Field_Names Field_Type].
  rewrite index0_firstn.
  destruct (index0 (Field_Names f)); cbn [bind]; try reflexivity.
  destruct (generateType fmt_struct (Field_Type f)); cbn [bind]; try reflexivity.
  apply IH.
Qed.

Lemma returnsLoop_withoutNames (l : list Field) :
  forall i names types,
    returnsLoop fmt_struct (map withoutNames l) i names types =
    returnsLoop fmt_struct l i names types.
Proof.
  induction l as [| f rest IH]; intros i names types; [reflexivity |].
  cbn [map returnsLoop withoutNames Field_Type].
  destruct (generateType fmt_struct (Field_Type f)); cbn [bind]; try reflexivity.
  apply IH.
Qed.

Lemma generateParams_firstNameOnly (params : FieldList) :
  generateParams fmt_struct (option_map (map firstNameOnly) params) =
  generateParams fmt_struct params.
Proof.
  destruct params as [[| f rest] |]; try reflexivity.
  unfold generateParams, option_map. cbn [map].
  change (firstNameOnly f :: map firstNameOnly rest)
    with (map firstNameOnly (f :: rest)).
  now rewrite fieldsLoop_firstNameOnly.
Qed.

Lemma generateTypeParams_firstNameOnly (typeParams : FieldList) :
  generateTypeParams fmt_struct (option_map (map firstNameOnly) typeParams) =
  generateTypeParams fmt_struct typeParams.
Proof.
  destruct typeParams as [[| f rest] |]; try reflexivity.
  unfold generateTypeParams, option_map. cbn [map].
  change (firstNameOnly f :: map firstNameOnly rest)
    with (map firstNameOnly (f :: rest)).
  now rewrite fieldsLoop_firstNameOnly.
Qed.

Lemma generateReturns_withoutNames (rets : FieldList) :
  generateReturns fmt_struct (option_map (map withoutNames) rets) =
  generateReturns fmt_struct rets.
Proof.
  destruct rets as [[| f rest] |]; try reflexivity.
  unfold generateReturns, option_map. cbn [map].
  change (withoutNames f :: map withoutNames rest)
    with (map withoutNames (f :: rest)).
  now rewrite returnsLoop_withoutNames.
Qed.

Lemma generateReceiver_firstNameOnly (recv : FieldList) :
  generateReceiver fmt_struct (firstReceiver recv) = generateReceiver fmt_struct recv.
Proof.
  destruct recv as [[| f rest] |]; try reflexivity.
  unfold generateReceiver, firstReceiver.
  cbn [index0 bind firstNameOnly Field_Names Field_Type].
  now rewrite index0_firstn.
Qed.

(** X6. The synthesizer reads a declaration through the first field of
    the receiver, the first name of each field of the receiver, the type
    parameters and the parameters, and the types of the results: every
    other name of a field, and every name of a result, leaves its outcome
    and the text it appends unchanged. *)
Theorem X6_generateMust_reads_first_names (newName : string) (fn : FuncDecl) (buf : string) :
  generateMust fmt_struct newName (extractedPart fn) buf =
  generateMust fmt_struct newName fn buf.
Proof.
  unfold generateMust, extractedPart.
  cbn [FuncDecl_Type TypeParams Params Results Recv FuncDecl_Name].
  now rewrite generateTypeParams_firstNameOnly, generateReceiver_firstNameOnly,
    generateParams_firstNameOnly, generateReturns_withoutNames.
Qed.

End FieldFacts2.

(** ** The variables of the results *)

Lemma to_uint_not_Nil (n : nat) : Nat.to_uint n <> Decimal.Nil.
Proof.
  pose proof (DecimalNat.Unsigned.to_of (Nat.to_uint n)) as H.
  rewrite DecimalNat.Unsigned.of_to in H. rewrite H.
  apply DecimalFacts.unorm_nonnil.
Qed.

(** [%d] prints different numbers differently. *)
Lemma itoa_inj (n m : nat) : itoa n = itoa m -> n = m.
Proof.
  unfold itoa. intro H.
  apply (f_equal NilZero.uint_of_string) in H.
  rewrite !NilZero.usu in H by apply to_uint_not_Nil.
  injection H as H. now apply DecimalNat.Unsigned.to_uint_inj.
Qed.

Lemma varNames_S (i n : nat) :
  varNames i (S n) = (varNames i n ++ [("var" ++ itoa (i + n))%string])%list.
Proof. unfold varNames. now rewrite seq_S, map_app. Qed.

Lemma varNames_NoDup (i n : nat) : NoDup (varNames i n).
Proof.
  unfold varNames. apply NoDup_map_NoDup_ForallPairs; [| apply seq_NoDup].
  intros x y _ _ H. injection H as H. now apply itoa_inj.
Qed.

Lemma err_not_varName (i n : nat) : ~ In "err" (varNames i n).
Proof.
  unfold varNames. intro H. apply in_map_iff in H.
  destruct H as (k & Hk & _). discriminate Hk.
Qed.

(** X7. When the results extractor succeeds on a list of [k] fields,
    the variables it returns are [var0], ..., [var<k-2>] followed by
    [err]: as many as the types, and no two of them alike. *)
Theorem X7_generateReturns_variables (fmt_struct : Expr -> string)
    (l : list Field) (types names : list string) :
  generateReturns fmt_struct (Some l) = Ok (types, names) ->
  names = (varNames 0 (length l - 1) ++ ["err"])%list
  /\ length names = length types
  /\ NoDup names.
Proof.
  rewrite generateReturns_cases.
  destruct l as [| f l]; [discriminate |].
  destruct (forallb (reconstructs fmt_struct) (f :: l)); [| discriminate].
  destruct (last _ "" =? "error")%string; [| discriminate].
  intro H. injection H as <- <-.
  cbn [length]. rewrite Nat.sub_succ, Nat.sub_0_r.
  assert (Hnames : setLast (varNames 0 (S (length l))) "err"
                   = (varNames 0 (length l) ++ ["err"])%list).
  { unfold setLast. now rewrite varNames_S, removelast_last. }
  rewrite Hnames. split; [reflexivity |]. split.
  - rewrite length_app, length_map. unfold varNames.
    rewrite length_map, length_seq. simpl. lia.
  - apply NoDup_app.
    + apply varNames_NoDup.
    + constructor; [intros [] | constructor].
    + intros a Ha [<- | []]. exact (err_not_varName _ _ Ha).
Qed.

(** [func F() (int, *T, error)]: [var0], [var1] and [err]. *)
Lemma X7_generateReturns_variables_witness :
  NoDup ["var0"; "var1"; "err"].
Proof.
  exact (proj2 (proj2 (X7_generateReturns_variables fmt_none
           [mkField [] int; mkField [] (StarExpr (Ident "T")); mkField [] error_type]
           ["int"; "*T"; "error"] ["var0"; "var1"; "err"] eq_refl))).
Defined.

(** ** The outcomes of the synthesizer and of a run *)

Section RunFacts.

Variable fmt_struct : Expr -> string.

Lemma fieldsLoop_outcome (l : list Field) :
  forall names types,
    match fieldsLoop fmt_struct l names types with
    | Fail e => e = errUnknownFieldType
    | Exit _ => False
    | _ => True
    end.
Proof.
  induction l as [| f rest IH]; intros names types; cbn [fieldsLoop]; [exact I |].
  destruct (Field_Names f) as [| n ns]; cbn [index0 bind]; [exact I |].
  destruct (generateType_outcome fmt_struct (Field_Type f)) as [[t ->] | ->];
    cbn [bind]; [apply IH | reflexivity].
Qed.

Lemma generateParams_outcome (params : FieldList) :
  match generateParams fmt_struct params with
  | Fail e => e = errUnknownFieldType
  | Exit _ => False
  | _ => True
  end.
Proof.
  destruct params as [[| f rest] |]; try exact I.
  unfold generateParams.
  pose proof (fieldsLoop_outcome (f :: rest) [] []) as H.
  destruct (fieldsLoop fmt_struct (f :: rest) [] []) as [[names types] | | |];
    cbn [bind]; auto.
Qed.

Lemma generateTypeParams_outcome (typeParams : FieldList) :
  match generateTypeParams fmt_struct typeParams with
  | Fail e => e = errUnknownFieldType
  | Exit _ => False
  | _ => True
  end.
Proof.
  destruct typeParams as [[| f rest] |]; try exact I.
  unfold generateTypeParams.
  pose proof (fieldsLoop_outcome (f :: rest) [] []) as H.
  destruct (fieldsLoop fmt_struct (f :: rest) [] []) as [[names types] | | |];
    cbn [bind]; auto.
  destruct (0 <? length names)%nat; exact I.
Qed.

Lemma generateReceiver_outcome (recv : FieldList) :
  match generateReceiver fmt_struct recv with
  | Fail e => e = errUnknownFieldType
  | Exit _ => False
  | _ => True
  end.
Proof.
  destruct recv as [[| f rest] |]; try exact I.
  unfold generateReceiver. cbn [index0 bind].
  destruct (Field_Names f) as [| n ns]; cbn [index0 bind]; [exact I |].
  destruct (generateType_outcome fmt_struct (Field_Type f)) as [[t ->] | ->];
    cbn [bind]; [exact I | reflexivity].
Qed.

Lemma generateReturns_outcome (rets : FieldList) :
  match generateReturns fmt_struct rets with
  | Fail e => extractionError e = true
  | Exit _ | Panic => False
  | Ok _ => True
  end.
Proof.
  rewrite generateReturns_cases.
  destruct rets as [[| f rest] |]; try reflexivity.
  destruct (forallb (reconstructs fmt_struct) (f :: rest)); [| reflexivity].
  destruct (last _ "" =? "error")%string; [exact I | reflexivity].
Qed.

(** The outcomes of [generateMust], extractor by extractor. *)
Lemma generateMust_outcome (newName : string) (fn : FuncDecl) (buf : string) :
  isOk (generateMust fmt_struct newName fn buf) =
    isOk (generateTypeParams fmt_struct (TypeParams (FuncDecl_Type fn)))
    && isOk (generateReceiver fmt_struct (Recv fn))
    && isOk (generateParams fmt_struct (Params (FuncDecl_Type fn)))
    && isOk (generateReturns fmt_struct (Results (FuncDecl_Type fn)))
  /\ (forall e, generateMust fmt_struct newName fn buf <> Fail e)
  /\ (forall b err, generateMust fmt_struct newName fn buf = Ok (b, err) -> err = None)
  /\ (forall e, generateMust fmt_struct newName fn buf = Exit e ->
                extractionError e = true).
Proof.
  unfold generateMust.
  pose proof (generateTypeParams_outcome (TypeParams (FuncDecl_Type fn))) as H1.
  pose proof (generateReceiver_outcome (Recv fn)) as H2.
  pose proof (generateParams_outcome (Params (FuncDecl_Type fn))) as H3.
  pose proof (generateReturns_outcome (Results (FuncDecl_Type fn))) as H4.
  destruct (generateTypeParams fmt_struct (TypeParams (FuncDecl_Type fn)))
    as [[tpd tpu] | e1 | |];
    [destruct (generateReceiver fmt_struct (Recv fn)) as [[rd ru] | e2 | |];
     [destruct (generateParams fmt_struct (Params (FuncDecl_Type fn)))
        as [[pd pu] | e3 | |];
      [destruct (generateReturns fmt_struct (Results (FuncDecl_Type fn)))
         as [[retd retv] | e4 | |] | ..] | ..] | ..];
    cbn [showError bind isOk andb];
    repeat split; intros; try discriminate; try contradiction; try reflexivity;
    try (match goal with H : Exit _ = Exit _ |- _ => injection H as <- end;
         subst; first [reflexivity | assumption]);
    congruence.
Qed.

(** X8. [generateMust] returns exactly when the four extractors
    succeed.  It never hands an error back to the walk: the error it
    returns is always nil, and a failure of an extractor ends the process
    instead, with [errUnknownFieldType], [errNoReturnValues] or
    [errNoErrorReturn]. *)
Theorem X8_generateMust_outcomes (newName : string) (fn : FuncDecl) (buf : string) :
  isOk (generateMust fmt_struct newName fn buf) =
    isOk (generateTypeParams fmt_struct (TypeParams (FuncDecl_Type fn)))
    && isOk (generateReceiver fmt_struct (Recv fn))
    && isOk (generateParams fmt_struct (Params (FuncDecl_Type fn)))
    && isOk (generateReturns fmt_struct (Results (FuncDecl_Type fn)))
  /\ (forall e, generateMust fmt_struct newName fn buf <> Fail e)
  /\ (forall b err, generateMust fmt_struct newName fn buf = Ok (b, err) -> err = None)
  /\ (forall e, generateMust fmt_struct newName fn buf = Exit e ->
                extractionError e = true).
Proof. exact (generateMust_outcome newName fn buf). Qed.

End RunFacts.

Section RunFacts2.

Variable fmt_struct : Expr -> string.

Lemma tagComment_outcome (file : File) (tag : string) (fn : FuncDecl) :
  (exists r, tagComment file tag fn = Ok r) \/ tagComment file tag fn = Panic.
Proof.
  rewrite tagComment_cases.
  destruct (Body fn) as [b |].
  - destruct (firstCommentWithin file b) as [c |]; [| left; eexists; reflexivity].
    destruct (firstNode b) as [n |]; [| now right].
    destruct (Stmt_Pos n <? Comment_Pos c)%Z; [left; eexists; reflexivity |].
    destruct (HasPrefix (Text c) ("//" ++ tag)); left; eexists; reflexivity.
  - destruct (allComments file); [left; eexists; reflexivity | now right].
Qed.

Lemma newName_outcome (tag : string) (c : Comment) (fn : FuncDecl) :
  (exists r, newName tag c fn = Ok r) \/ newName tag c fn = Panic.
Proof.
  unfold newName. cbv zeta.
  destruct (HasPrefix (TrimPrefix (Text c) ("//" ++ tag)) ":"); [left; eexists; reflexivity |].
  destruct (TrimPrefix (Text c) ("//" ++ tag) =? "")%string; [| left; eexists; reflexivity].
  unfold mustName. destruct (FuncDecl_Name fn) as [| f rest]; [now right |].
  destruct (ToUpper1 f =? String f "")%string; left; eexists; reflexivity.
Qed.

Lemma generateMust_ends (name : string) (fn : FuncDecl) (buf : string) :
  endsAsExtractor (generateMust fmt_struct name fn buf).
Proof.
  destruct (generateMust_outcome fmt_struct name fn buf) as (_ & Hfail & _ & Hexit).
  destruct (generateMust fmt_struct name fn buf) as [r | e | | e]; simpl.
  - exact I.
  - exact (Hfail e eq_refl).
  - exact I.
  - exact (Hexit e eq_refl).
Qed.

Lemma visitFuncDecl_ends (file : File) (tag : string) (fn : FuncDecl)
    (st : string * option error) :
  endsAsExtractor (visitFuncDecl string (generateMust fmt_struct) file tag fn st).
Proof.
  unfold visitFuncDecl.
  destruct (tagComment_outcome file tag fn) as [[[c |] ->] | ->]; cbn [bind];
    try exact I.
  destruct (newName_outcome tag c fn) as [[name ->] | ->]; cbn [bind]; [| exact I].
  apply generateMust_ends.
Qed.

Lemma inspectDecls_ends (file : File) (tag : string) (decls : list Decl) :
  forall st,
    endsAsExtractor (inspectDecls string (generateMust fmt_struct) file tag decls st).
Proof.
  induction decls as [| d decls IH]; intro st; cbn [inspectDecls]; [exact I |].
  destruct d as [fn |]; [| apply IH].
  pose proof (visitFuncDecl_ends file tag fn st) as Hv.
  destruct (visitFuncDecl string (generateMust fmt_struct) file tag fn st)
    as [st' | e | | e]; cbn [bind]; [apply IH | exact Hv ..].
Qed.

Lemma walkFiles_ends (files : list File) (tag : string) :
  forall buf,
    endsAsExtractor (walkFiles string (generateMust fmt_struct) files tag buf).
Proof.
  induction files as [| file files IH]; intro buf; cbn [walkFiles]; [exact I |].
  pose proof (inspectDecls_ends file tag (Decls file) (buf, None)) as Hi.
  destruct (inspectDecls string (generateMust fmt_struct) file tag (Decls file) (buf, None))
    as [[buf' err] | e | | e] eqn:Hins; cbn [bind]; try exact Hi.
  apply inspectDecls_appends in Hins. destruct Hins as [_ ->]. apply IH.
Qed.

(** X9. A run over a loaded package returns its buffer, panics, or
    ends the process with [errUnknownFieldType], [errNoReturnValues] or
    [errNoErrorReturn].  With [generateMust] as its [genFn] the walk
    never returns an error, so the call of [showError] after [walkCode]
    in [main] is never reached with one. *)
Theorem X9_run_outcomes (pkg : Package) :
  (forall tag buf e,
      walkCode string (generateMust fmt_struct) pkg tag buf <> Fail e)
  /\ (forall e, generate fmt_struct pkg <> Fail e)
  /\ (forall e, generate fmt_struct pkg = Exit e ->
                e = errUnknownFieldType \/ e = errNoReturnValues \/ e = errNoErrorReturn).
Proof.
  assert (Hw : forall tag buf,
             endsAsExtractor (walkCode string (generateMust fmt_struct) pkg tag buf))
    by (intros; apply walkFiles_ends).
  split; [| split].
  - intros tag buf e H. specialize (Hw tag buf). rewrite H in Hw. exact Hw.
  - intros e H. unfold generate in H.
    destruct (walkCode string (generateMust fmt_struct) pkg "@gen_must"
                (generateHead (Package_Name pkg) "")); simpl in H; discriminate.
  - intros e H. unfold generate in H.
    specialize (Hw "@gen_must" (generateHead (Package_Name pkg) "")).
    destruct (walkCode string (generateMust fmt_struct) pkg "@gen_must"
                (generateHead (Package_Name pkg) "")) as [r | e' | | e'];
      simpl in H; try discriminate; try contradiction.
    injection H as <-. simpl in Hw.
    destruct e'; [discriminate Hw | tauto ..].
Qed.

End RunFacts2.

(** ** The walk, for any [genFn] *)

Section WalkFacts.

Variable State : Type.
Variable genFn : string -> FuncDecl -> State -> outcome (State * option error).

Lemma bind_Ok_r {A : Type} (m : outcome A) : bind m Ok = m.
Proof. destruct m; reflexivity. Qed.

Lemma inspectDecls_untagged (file : File) (tag : string) (decls : list Decl) :
  (forall fn, In (FuncDeclNode fn) decls -> tagComment file tag fn = Ok None) ->
  forall st, inspectDecls State genFn file tag decls st = Ok st.
Proof.
  induction decls as [| d decls IH]; intros Hun st; [reflexivity |].
  destruct d as [fn |]; cbn [inspectDecls].
  - unfold visitFuncDecl. rewrite (Hun fn (or_introl eq_refl)). cbn [bind].
    apply IH. intros fn' Hin. apply Hun. now right.
  - apply IH. intros fn' Hin. apply Hun. now right.
Qed.

(** The variable [err] after a file is what [genFn] returned for its last
    tagged declaration. *)
Lemma inspectDecls_last (file : File) (tag : string) (decls after : list Decl)
    (fn : FuncDecl) (c : Comment) (name : string) (st : State * option error)
    (s1 : State) (e1 : option error) :
  (forall fn', In (FuncDeclNode fn') after -> tagComment file tag fn' = Ok None) ->
  tagComment file tag fn = Ok (Some c) -> newName tag c fn = Ok name ->
  inspectDecls State genFn file tag decls st = Ok (s1, e1) ->
  inspectDecls State genFn file tag (decls ++ FuncDeclNode fn :: after)%list st
  = genFn name fn s1.
Proof.
  intros Hafter Htag Hname Hdecls.
  rewrite inspectDecls_app, Hdecls. cbn [bind inspectDecls].
  unfold visitFuncDecl. rewrite Htag. cbn [bind]. rewrite Hname. cbn [bind fst].
  destruct (genFn name fn s1) as [st' | | |]; cbn [bind]; try reflexivity.
  now apply inspectDecls_untagged.
Qed.

(** X10. Within a file the walk does not stop at an error of [genFn]:
    the error is kept in a variable that the next tagged declaration
    overwrites.  When the last tagged declaration of a file, whatever
    declarations without a tag follow it, is generated without error, the
    walk goes on to the next file, whatever [genFn] returned before, and
    keeps the state the earlier calls left; when it fails, its error is
    the result and no later file is walked. *)
Theorem X10_walk_last_error (file : File) (rest : list File) (tag : string)
    (decls after : list Decl) (fn : FuncDecl) (c : Comment) (name : string)
    (s s1 s2 : State) (e1 : option error) :
  Decls file = (decls ++ FuncDeclNode fn :: after)%list ->
  (forall fn', In (FuncDeclNode fn') after -> tagComment file tag fn' = Ok None) ->
  tagComment file tag fn = Ok (Some c) -> newName tag c fn = Ok name ->
  inspectDecls State genFn file tag decls (s, None) = Ok (s1, e1) ->
  (genFn name fn s1 = Ok (s2, None) ->
   walkFiles State genFn (file :: rest) tag s = walkFiles State genFn rest tag s2)
  /\ (forall e, genFn name fn s1 = Ok (s2, Some e) ->
                walkFiles State genFn (file :: rest) tag s = Fail e).
Proof.
  intros HDecls Hafter Htag Hname Hdecls.
  pose proof (inspectDecls_last file tag decls after fn c name (s, None) s1 e1
                Hafter Htag Hname Hdecls) as Hlast.
  split.
  - intro Hgen. cbn [walkFiles]. rewrite HDecls, Hlast, Hgen. reflexivity.
  - intros e Hgen. cbn [walkFiles]. rewrite HDecls, Hlast, Hgen. reflexivity.
Qed.

(** X11. Walking a list of files is walking its front and then, from
    the state reached, its back; when the front ends in an error, a panic
    or an exit, that is the outcome and the back is not walked. *)
Theorem X11_walkFiles_app (files1 files2 : list File) (tag : string) (s : State) :
  walkFiles State genFn (files1 ++ files2)%list tag s =
  (s' <- walkFiles State genFn files1 tag s ;;
   walkFiles State genFn files2 tag s').
Proof.
  revert s. induction files1 as [| file files1 IH]; intro s; [reflexivity |].
  cbn [app walkFiles].
  destruct (inspectDecls State genFn file tag (Decls file) (s, None))
    as [[s' [e |]] | | |]; cbn [bind]; try reflexivity.
  apply IH.
Qed.

Lemma tagComment_no_comments (file : File) (tag : string) (fn : FuncDecl) :
  allComments file = [] -> tagComment file tag fn = Ok None.
Proof.
  intro H. rewrite tagComment_cases. unfold firstCommentWithin. rewrite H.
  destruct (Body fn); reflexivity.
Qed.

Lemma walkFiles_no_comments (files : list File) (tag : string) :
  (forall file, In file files -> allComments file = []) ->
  forall s, walkFiles State genFn files tag s = Ok s.
Proof.
  induction files as [| file files IH]; intros Hno s; [reflexivity |].
  cbn [walkFiles].
  rewrite inspectDecls_untagged.
  - cbn [bind]. apply IH. intros f Hin. apply Hno. now right.
  - intros fn _. apply tagComment_no_comments. apply Hno. now left.
Qed.

End WalkFacts.

(** In [file_three] the first declaration fails and the second, the last
    one with a tag, does not: the walk returns, and both names have been
    recorded. *)
Lemma X10_walk_last_error_witness :
  walkFiles (list string) (recordNames "First") [file_three] "@gen_must" []
  = Ok ["MustFirst"; "MustSecond"].
Proof.
  refine (proj1 (X10_walk_last_error (list string) (recordNames "First")
                   file_three [] "@gen_must" [FuncDeclNode First]
                   [GenDecl; FuncDeclNode Third] Second
                   (mkComment 144%Z "//@gen_must") "MustSecond"
                   [] ["MustFirst"] ["MustFirst"; "MustSecond"] (Some errNoErrorReturn)
                   eq_refl _ eq_refl eq_refl eq_refl) eq_refl).
  intros fn' [H | [H | []]]; [discriminate H | injection H as <-; reflexivity].
Defined.

(** X12. In a package whose files have no comment the walk calls
    [genFn] for no declaration and panics on none, with or without a
    body: it returns the state it was given, and the buffer of the run is
    the header alone. *)
Theorem X12_no_comments_no_wrappers (fmt_struct : Expr -> string) (pkg : Package) :
  (forall file, In file (Syntax pkg) -> allComments file = []) ->
  (forall (State : Type) genFn tag (s : State),
      walkCode State genFn pkg tag s = Ok s)
  /\ generate fmt_struct pkg = Ok (generateHead (Package_Name pkg) "").
Proof.
  intro Hno. split.
  - intros State genFn tag s. now apply walkFiles_no_comments.
  - unfold generate, walkCode. now rewrite walkFiles_no_comments.
Qed.

(** The package of [add], a declaration without a body. *)
Lemma X12_no_comments_no_wrappers_witness :
  generate fmt_none (mkPackage "testpkg" [file_external])
  = Ok (generateHead "testpkg" "").
Proof.
  refine (proj2 (X12_no_comments_no_wrappers fmt_none
                   (mkPackage "testpkg" [file_external]) _)).
  intros file [<- | []]. reflexivity.
Defined.

(** ** The tag scanner, further *)

Lemma find_filter {A : Type} (p : A -> bool) (l : list A) :
  find p l = match filter p l with [] => None | x :: _ => Some x end.
Proof.
  induction l as [| x l IH]; [reflexivity |].
  simpl. destruct (p x); [reflexivity | exact IH].
Qed.

(** X13. For a declaration with a body the scan looks at the comments
    of the file within the body span and at nothing else: two files whose
    comments within the span are the same, in the same order, give the
    same result, however many comments they have elsewhere and however
    the comments are grouped. *)
Theorem X13_scan_reads_span_only (file1 file2 : File) (tag : string) (fn : FuncDecl)
    (b : BlockStmt) :
  Body fn = Some b ->
  filter (inSpan b) (allComments file1) = filter (inSpan b) (allComments file2) ->
  tagComment file1 tag fn = tagComment file2 tag fn.
Proof.
  intros Hb Hsame. rewrite !tagComment_cases, Hb.
  unfold firstCommentWithin. now rewrite !find_filter, Hsame.
Qed.

(** [Divide] in its file, and in a file with a tagged comment before the
    body and another after it. *)
Lemma X13_scan_reads_span_only_witness :
  tagComment (mkFile [mkCommentGroup [mkComment 10%Z "//@gen_must: Other";
                                      mkComment 44%Z "//@gen_must"];
                      mkCommentGroup [mkComment 300%Z "//@gen_must"]]
                     [FuncDeclNode Divide])
             "@gen_must" Divide
  = tagComment file_Divide "@gen_must" Divide.
Proof.
  apply (X13_scan_reads_span_only _ file_Divide "@gen_must" Divide
           (mkBlockStmt 40%Z [mkStmt 60%Z] 120%Z)); reflexivity.
Defined.

Lemma tagComment_Some_inv (file : File) (tag : string) (fn : FuncDecl) (c : Comment) :
  tagComment file tag fn = Ok (Some c) ->
  exists b, Body fn = Some b /\ In c (allComments file) /\ inSpan b c = true
            /\ HasPrefix (Text c) ("//" ++ tag) = true.
Proof.
  rewrite tagComment_cases.
  destruct (Body fn) as [b |]; [| destruct (allComments file); discriminate].
  destruct (firstCommentWithin file b) as [c' |] eqn:Hc; [| discriminate].
  destruct (firstNode b) as [n |]; [| discriminate].
  destruct (Stmt_Pos n <? Comment_Pos c')%Z; [discriminate |].
  destruct (HasPrefix (Text c') ("//" ++ tag)) eqn:Hp; [| discriminate].
  intro H. injection H as <-.
  unfold firstCommentWithin in Hc. apply find_some in Hc. destruct Hc as [Hin Hspan].
  exists b. auto.
Qed.

(** X14. The comment that tags a declaration lies within the body of
    that declaration.  Two declarations of a file whose bodies do not
    overlap are therefore never tagged by the same comment: the tag of
    the one that comes first comes first. *)
Theorem X14_one_tag_one_declaration (file : File) (tag : string) (fn1 fn2 : FuncDecl)
    (b1 b2 : BlockStmt) (c1 c2 : Comment) :
  Body fn1 = Some b1 -> Body fn2 = Some b2 ->
  (Rbrace b1 < Lbrace b2)%Z ->
  tagComment file tag fn1 = Ok (Some c1) ->
  tagComment file tag fn2 = Ok (Some c2) ->
  (Lbrace b1 <= Comment_Pos c1 <= Rbrace b1)%Z
  /\ (Lbrace b2 <= Comment_Pos c2 <= Rbrace b2)%Z
  /\ (Comment_Pos c1 < Comment_Pos c2)%Z.
Proof.
  intros Hb1 Hb2 Hdisj Ht1 Ht2.
  apply tagComment_Some_inv in Ht1, Ht2.
  destruct Ht1 as (b1' & Hb1' & _ & Hs1 & _), Ht2 as (b2' & Hb2' & _ & Hs2 & _).
  rewrite Hb1 in Hb1'. injection Hb1' as <-.
  rewrite Hb2 in Hb2'. injection Hb2' as <-.
  unfold inSpan in Hs1, Hs2.
  apply andb_true_iff in Hs1, Hs2.
  destruct Hs1 as [H1 H2], Hs2 as [H3 H4].
  apply Z.leb_le in H1, H2, H3, H4. lia.
Qed.

(** [First] and [Second] in [file_two]. *)
Lemma X14_one_tag_one_declaration_witness :
  (Comment_Pos (mkComment 44%Z "//@gen_must")
   < Comment_Pos (mkComment 144%Z "//@gen_must"))%Z.
Proof.
  refine (proj2 (proj2 (X14_one_tag_one_declaration file_two "@gen_must" First Second
            (mkBlockStmt 40%Z [mkStmt 60%Z] 120%Z) (mkBlockStmt 140%Z [mkStmt 160%Z] 220%Z)
            (mkComment 44%Z "//@gen_must") (mkComment 144%Z "//@gen_must")
            eq_refl eq_refl _ eq_refl eq_refl))).
  reflexivity.
Defined.

(** ** The name of the wrapper, further *)

(** X15. When the text after the marker prefix is not empty and does
    not begin with a colon, it is the name of the wrapper as it stands,
    white space included: [//@gen_must Foo] names the wrapper [ Foo]
    with its leading space. *)
Theorem X15_remainder_verbatim (tag : string) (c : Comment) (fn : FuncDecl) (rest : string) :
  Text c = "//" ++ tag ++ rest ->
  rest <> "" -> HasPrefix rest ":" = false ->
  newName tag c fn = Ok rest.
Proof.
  intros HText Hne Hcolon. unfold newName. rewrite HText.
  change ("//" ++ tag ++ rest) with (("//" ++ tag) ++ rest).
  cbv zeta. rewrite TrimPrefix_app, Hcolon.
  apply String.eqb_neq in Hne. now rewrite Hne.
Qed.

Lemma X15_remainder_verbatim_witness :
  newName "@gen_must" (mkComment 44%Z "//@gen_must Foo") Divide = Ok " Foo".
Proof.
  refine (X15_remainder_verbatim "@gen_must" (mkComment 44%Z "//@gen_must Foo") Divide
            " Foo" eq_refl _ eq_refl).
  discriminate.
Defined.

(** X16. A colon followed by nothing but ASCII white space names the
    wrapper with the empty text: the default name is not used in its
    place. *)
Theorem X16_colon_without_name (tag : string) (c : Comment) (fn : FuncDecl) (ws : string) :
  Text c = "//" ++ tag ++ ":" ++ ws ->
  allSpace ws = true ->
  newName tag c fn = Ok "".
Proof.
  intros HText Hws. unfold newName. rewrite HText.
  change ("//" ++ tag ++ ":" ++ ws) with (("//" ++ tag) ++ ":" ++ ws).
  cbv zeta. rewrite TrimPrefix_app.
  cbn [HasPrefix Ascii.eqb Bool.eqb andb drop append].
  rewrite <- (string_app_nil_r ws).
  change (ws ++ "") with (ws ++ "" ++ "").
  now rewrite TrimSpace_ascii.
Qed.

Lemma X16_colon_without_name_witness :
  newName "@gen_must" (mkComment 44%Z "//@gen_must:  ") Divide = Ok "".
Proof.
  exact (X16_colon_without_name "@gen_must" (mkComment 44%Z "//@gen_must:  ") Divide
           "  " eq_refl eq_refl).
Defined.

(** ** The default name, further *)

Lemma mustName_ascii (c : ascii) (rest : string) :
  (byte c < 128)%N ->
  mustName (String c rest) =
    Ok (if isLower c then "must" ++ String (upper c) rest
        else "Must" ++ String c rest).
Proof.
  intro Hc. unfold mustName. rewrite (ToUpper1_ascii c Hc).
  destruct (isLower c) eqn:Hl.
  - assert (Hneq : upper c <> c).
    { intro Heq. apply upper_fixed_iff in Heq. congruence. }
    assert (Hs : (String (upper c) "" =? String c "")%string = false).
    { apply String.eqb_neq. intro Heq. injection Heq. exact Hneq. }
    rewrite Hs. reflexivity.
  - apply upper_fixed_iff in Hl. rewrite Hl.
    rewrite String.eqb_refl. reflexivity.
Qed.

Lemma letter_ascii (c : ascii) : isUpper c || isLower c = true -> (byte c < 128)%N.
Proof.
  unfold isUpper, isLower. intro H.
  apply orb_true_iff in H. destruct H as [H | H];
    apply andb_true_iff in H; destruct H as [_ H]; apply N.leb_le in H; lia.
Qed.

Lemma isUpper_not_isLower (c : ascii) : isLower c = true -> isUpper c = false.
Proof.
  unfold isUpper, isLower. intro H.
  apply andb_true_iff in H. destruct H as [H _]. apply N.leb_le in H.
  apply andb_false_iff. right. apply N.leb_gt. lia.
Qed.

(** X17. For a name that begins with an ASCII letter the default name
    of the wrapper is exported exactly when the name is: it begins with
    an upper-case letter if and only if the name does. *)
Theorem X17_mustName_keeps_export (c : ascii) (rest : string) :
  isUpper c || isLower c = true ->
  exists r, mustName (String c rest) = Ok r /\ firstUpper r = isUpper c.
Proof.
  intro Hletter.
  rewrite (mustName_ascii c rest (letter_ascii c Hletter)).
  destruct (isLower c) eqn:Hl; eexists; (split; [reflexivity |]).
  - now rewrite (isUpper_not_isLower c Hl).
  - rewrite orb_false_r in Hletter. now rewrite Hletter.
Qed.

Lemma X17_mustName_keeps_export_witness :
  exists r, mustName "doThing" = Ok r /\ firstUpper r = false.
Proof.
  exact (X17_mustName_keeps_export "d"%char "oThing" eq_refl).
Defined.

Lemma upper_lower_back (c : ascii) :
  isLower c = true -> ascii_of_N (byte (upper c) + 32) = c.
Proof.
  destruct c as [[] [] [] [] [] [] [] []]; intro H;
    try (vm_compute in H; discriminate H); reflexivity.
Qed.

Lemma mustName_inj_ascii (c1 c2 : ascii) (r1 r2 : string) :
  (byte c1 < 128)%N -> (byte c2 < 128)%N ->
  mustName (String c1 r1) = mustName (String c2 r2) ->
  String c1 r1 = String c2 r2.
Proof.
  intros H1 H2. rewrite (mustName_ascii c1 r1 H1), (mustName_ascii c2 r2 H2).
  destruct (isLower c1) eqn:Hl1, (isLower c2) eqn:Hl2; intro H.
  - injection H as Hc Hr.
    rewrite <- (upper_lower_back c1 Hl1), <- (upper_lower_back c2 Hl2), Hc, Hr.
    reflexivity.
  - discriminate H.
  - discriminate H.
  - injection H as Hc Hr. now rewrite Hc, Hr.
Qed.

(** X18. Two different names that begin with an ASCII byte have
    different default wrapper names: the default names of two functions
    never collide. *)
Theorem X18_mustName_no_collision (c1 c2 : ascii) (r1 r2 : string) :
  (byte c1 < 128)%N -> (byte c2 < 128)%N ->
  String c1 r1 <> String c2 r2 ->
  mustName (String c1 r1) <> mustName (String c2 r2).
Proof.
  intros H1 H2 Hne Heq. apply Hne. now apply mustName_inj_ascii.
Qed.

Lemma X18_mustName_no_collision_witness :
  mustName "doThing" <> mustName "DoThing".
Proof.
  refine (X18_mustName_no_collision "d"%char "D"%char "oThing" "oThing" _ _ _);
    [reflexivity | reflexivity | discriminate].
Defined.

(** ** The wrapper of a function that returns only an error *)

(** X19. For a declaration whose only result is [error] the wrapper
    declares an empty result list, assigns the call to [err] alone and
    has no [return] statement. *)
Theorem X19_error_only_wrapper (fmt_struct : Expr -> string) (newName : string)
    (fn : FuncDecl) (buf : string) (f : Field)
    (tpd tpu rd ru pd pu : string) :
  Results (FuncDecl_Type fn) = Some [f] ->
  generateType fmt_struct (Field_Type f) = Ok "error" ->
  generateTypeParams fmt_struct (TypeParams (FuncDecl_Type fn)) = Ok (tpd, tpu) ->
  generateReceiver fmt_struct (Recv fn) = Ok (rd, ru) ->
  generateParams fmt_struct (Params (FuncDecl_Type fn)) = Ok (pd, pu) ->
  generateMust fmt_struct newName fn buf =
    Ok (buf
        ++ ("// " ++ newName ++ " has the behavior of " ++ FuncDecl_Name fn
                  ++ ", except it panics any error" ++ nl)
        ++ ("func " ++ rd ++ " " ++ newName ++ tpd ++ "(" ++ pd ++ ") () {" ++ nl)
        ++ ("err := " ++ ru ++ FuncDecl_Name fn ++ tpu ++ "(" ++ pu ++ ")" ++ nl
                      ++ "if err!=nil{panic(err)}" ++ nl)
        ++ "}" ++ nl ++ nl,
        None).
Proof.
  intros Hres Hty Htp Hrecv Hparams.
  unfold generateMust. rewrite Htp, Hrecv, Hparams, Hres.
  unfold generateReturns. cbn [returnsLoop]. rewrite Hty. reflexivity.
Qed.

(** [func First() error]. *)
Lemma X19_error_only_wrapper_witness :
  generateMust fmt_none "MustFirst" First "" =
    Ok (("// MustFirst has the behavior of First, except it panics any error" ++ nl)
        ++ ("func  MustFirst() () {" ++ nl)
        ++ ("err := First()" ++ nl ++ "if err!=nil{panic(err)}" ++ nl)
        ++ "}" ++ nl ++ nl,
        None).
Proof.
  exact (X19_error_only_wrapper fmt_none "MustFirst" First "" (mkField [] error_type)
           "" "" "" "" "" "" eq_refl eq_refl eq_refl eq_refl eq_refl).
Defined.

(** ** A run that returns *)

Section ReturnedRun.

Variable fmt_struct : Expr -> string.

Lemma visitFuncDecl_tagged_not_Ok (file : File) (tag : string) (fn : FuncDecl) (c : Comment) :
  tagComment file tag fn = Ok (Some c) ->
  (isOk (newName tag c fn)
   && isOk (generateTypeParams fmt_struct (TypeParams (FuncDecl_Type fn)))
   && isOk (generateReceiver fmt_struct (Recv fn))
   && isOk (generateParams fmt_struct (Params (FuncDecl_Type fn)))
   && isOk (generateReturns fmt_struct (Results (FuncDecl_Type fn))) = false) ->
  forall st, isOk (visitFuncDecl string (generateMust fmt_struct) file tag fn st) = false.
Proof.
  intros Htag Hbad st. unfold visitFuncDecl. rewrite Htag. cbn [bind].
  destruct (newName tag c fn) as [name | | |]; cbn [bind isOk andb] in *;
    try reflexivity.
  destruct (generateMust_outcome fmt_struct name fn (fst st)) as [-> _].
  exact Hbad.
Qed.

(** X20. When a run returns, every declaration of the package that is
    tagged has been given a name and has passed the four extractors: its
    result list is not empty, every result type reconstructs and the text
    of the last one is [error]. *)
Theorem X20_returned_run_is_checked (pkg : Package) (out : string)
    (file : File) (fn : FuncDecl) (c : Comment) :
  generate fmt_struct pkg = Ok out ->
  In file (Syntax pkg) -> In (FuncDeclNode fn) (Decls file) ->
  tagComment file "@gen_must" fn = Ok (Some c) ->
  isOk (newName "@gen_must" c fn) = true
  /\ isOk (generateTypeParams fmt_struct (TypeParams (FuncDecl_Type fn))) = true
  /\ isOk (generateReceiver fmt_struct (Recv fn)) = true
  /\ isOk (generateParams fmt_struct (Params (FuncDecl_Type fn))) = true
  /\ exists l types names,
       Results (FuncDecl_Type fn) = Some l /\ l <> []
       /\ generateReturns fmt_struct (Some l) = Ok (types, names)
       /\ last types "" = "error".
Proof.
  intros Hrun Hfile Hfn Htag.
  destruct (isOk (newName "@gen_must" c fn)
            && isOk (generateTypeParams fmt_struct (TypeParams (FuncDecl_Type fn)))
            && isOk (generateReceiver fmt_struct (Recv fn))
            && isOk (generateParams fmt_struct (Params (FuncDecl_Type fn)))
            && isOk (generateReturns fmt_struct (Results (FuncDecl_Type fn)))) eqn:Hall.
  - repeat (apply andb_true_iff in Hall; destruct Hall as [Hall ?]).
    repeat (split; [assumption |]).
    destruct (Results (FuncDecl_Type fn)) as [l |] eqn:Hres; [| discriminate].
    destruct (generateReturns fmt_struct (Some l)) as [[types names] | | |] eqn:Hret;
      try discriminate.
    exists l, types, names.
    split; [reflexivity |]. split; [intros ->; discriminate Hret |].
    split; [exact Hret |].
    now destruct (generateReturns_Ok fmt_struct l types names Hret) as (_ & Hlast & _).
  - exfalso.
    assert (Hno : isOk (generate fmt_struct pkg) = false).
    { unfold generate. rewrite isOk_showError. unfold walkCode.
      apply (walkFiles_not_Ok _ _ _ file); [exact Hfile |].
      apply (inspectDecls_not_Ok _ _ _ _ fn); [exact Hfn |].
      now apply (visitFuncDecl_tagged_not_Ok file "@gen_must" fn c). }
    rewrite Hrun in Hno. discriminate Hno.
Qed.

Lemma visitFuncDecl_frame (file : File) (tag : string) (fn : FuncDecl) (buf : string)
    (r : string * option error) :
  visitFuncDecl string (generateMust fmt_struct) file tag fn (buf, None) = Ok r ->
  forall b,
    visitFuncDecl string (generateMust fmt_struct) file tag fn (b, None) =
    Ok (b ++ emitted fmt_struct file tag (FuncDeclNode fn), None).
Proof.
  unfold emitted, visitFuncDecl.
  destruct (tagComment file tag fn) as [[c |] | | |]; cbn [bind]; try discriminate.
  - destruct (newName tag c fn) as [name | | |]; cbn [bind fst]; try discriminate.
    intros H b. destruct (generateMust_appends _ _ _ _ _ H) as [text Htext].
    now rewrite (Htext b), (Htext "").
  - intros _ b. now rewrite string_app_nil_r.
Qed.

Lemma inspectDecls_frame (file : File) (tag : string) (decls : list Decl) :
  forall buf r,
    inspectDecls string (generateMust fmt_struct) file tag decls (buf, None) = Ok r ->
    forall b,
      inspectDecls string (generateMust fmt_struct) file tag decls (b, None) =
      Ok (b ++ flatten (map (emitted fmt_struct file tag) decls), None).
Proof.
  induction decls as [| d decls IH]; intros buf r H b;
    cbn [inspectDecls map flatten fold_right].
  - now rewrite string_app_nil_r.
  - destruct d as [fn |]; cbn [inspectDecls] in H.
    + apply bind_Ok_inv in H. destruct H as (st1 & Hv & Hrest).
      pose proof (visitFuncDecl_frame file tag fn buf st1 Hv) as Hframe.
      rewrite (Hframe buf) in Hv. injection Hv as <-.
      rewrite (Hframe b). cbn [bind].
      rewrite (IH _ _ Hrest). now rewrite string_app_assoc.
    + exact (IH buf r H b).
Qed.

(** X21. The wrappers do not depend on what the buffer holds: when the
    walk returns from one buffer it returns from every buffer, and it
    appends the same text to each. *)
Theorem X21_walk_frame (pkg : Package) (tag : string) (buf buf' : string) :
  walkCode string (generateMust fmt_struct) pkg tag buf = Ok buf' ->
  exists text,
    buf' = buf ++ text
    /\ forall b, walkCode string (generateMust fmt_struct) pkg tag b = Ok (b ++ text).
Proof.
  unfold walkCode. intro H.
  exists (flatten (map (fun file =>
            flatten (map (emitted fmt_struct file tag) (Decls file))) (Syntax pkg))).
  split; [now apply walkFiles_appends |].
  revert buf buf' H.
  induction (Syntax pkg) as [| file files IH]; intros buf buf' H b;
    cbn [walkFiles map flatten fold_right].
  - now rewrite string_app_nil_r.
  - cbn [walkFiles] in H.
    apply bind_Ok_inv in H. destruct H as ([b1 e1] & Hi & Hrest).
    pose proof (inspectDecls_frame file tag (Decls file) buf _ Hi) as Hframe.
    rewrite (Hframe buf) in Hi. injection Hi as <- <-.
    rewrite (Hframe b). cbn [bind]. cbv beta iota in Hrest |- *.
    rewrite (IH _ _ Hrest). now rewrite string_app_assoc.
Qed.

End ReturnedRun.

(** The run over the package of [Divide] returns, and [Divide] is
    tagged. *)
Lemma X20_returned_run_is_checked_witness :
  isOk (generateParams fmt_none (Params (FuncDecl_Type Divide))) = true.
Proof.
  refine (proj1 (proj2 (proj2 (proj2 (X20_returned_run_is_checked fmt_none pkg_Divide _
            file_Divide Divide (mkComment 44%Z "//@gen_must")
            eq_refl _ _ eq_refl))))).
  - left. reflexivity.
  - right. left. reflexivity.
Defined.

(** The walk over the package of [Divide] from the empty buffer. *)
Lemma X21_walk_frame_witness :
  exists text,
    forall b, walkCode string (generateMust fmt_none) pkg_Divide "@gen_must" b
              = Ok (b ++ text).
Proof.
  destruct (X21_walk_frame fmt_none pkg_Divide "@gen_must" "" _ eq_refl)
    as [text [_ H]].
  exists text. exact H.
Defined.
